(** * smallsh: a shallow embedding of [main.c] and its verified properties

    The development follows the layout of the C source: token expansion
    ([stringReplace]), the command builder ([processInput]), the message
    queue ([pushMessageQueue], [clearMessageQueue]), the signal handlers
    ([handleSIGCHLD], [handleSIGTSTP]), the launcher ([execCmd]), shutdown
    ([exitShell]) and one turn of the prompt loop of [main].

    Conventions.
    - A C string is modelled by its contents, the bytes before the
      terminating NUL, as a [string].  An input line is what [getline]
      delivers: at least one byte, and, for the statements that say so, no
      NUL byte inside, so that its length is the count [getline] returns and
      the tokenizer sees all of it.  End of input is not modelled.
    - [int], [pid_t] and array indices held in [int] variables are [Z]; no
      value of the program comes near the 32-bit limits.
    - A fixed-size array is a [list] read with [!!] and written with
      [<[i:=v]>].  A store whose index lies outside the array is undefined
      behaviour in C; the model keeps the array as it is and records the
      store (index and value) in a log of stray stores, so that the absence
      of such stores can be stated and checked.  What the program does once
      such a store has happened is outside the model: with the usual layout
      [args[513]] is the [inputFile] field of the descriptor and
      [msgQueue[50]] is [queuePosition].  A statement about the fields of
      the descriptor or about the queue therefore assumes that the log is
      empty, or that the room is there, unless it is about the log itself.
    - System calls are visible through a trace of [event]s; what the
      operating system answers (the result of [fork], the status collected
      by [waitpid], the children that have terminated) is an argument. *)

From Stdlib Require Import ZArith Ascii String List Bool Lia DecimalString.
From Stdlib Require DecimalPos.
From stdpp Require Import base list strings.

#[local] Arguments String.append !_ _ / : simpl nomatch.

(** ** Characters and decimal output *)

Definition NUL : ascii := "000"%char.
Definition newline : ascii := "010"%char.
Definition space : ascii := " "%char.

(** [snprintf(.., "%d", n)] and the [%d] conversions of [sprintf]. *)
Definition decimal (n : Z) : string := NilEmpty.string_of_int (Z.to_int n).

(** [text] followed by a newline: the C literal ["text\n"]. *)
Definition line_of (text : string) : string := text +:+ String newline EmptyString.

(** ** stringReplace (main.c, lines 89-159) *)

Definition replaceToken : ascii := "$"%char.

(** The test of line 134, as written: [currentChar[c] != '\n' ||
    currentChar[c] != '\0']. *)
Definition copied (c : ascii) : bool :=
  negb (Ascii.eqb c newline) || negb (Ascii.eqb c NUL).

(** The inner loop (lines 131-145): append [currentChar] to [newWord], one
    byte at a time.  The doubling of the buffer is storage management and
    leaves the contents alone. *)
Fixpoint append_current (currentChar newWord : string) : string :=
  match currentChar with
  | EmptyString => newWord
  | String c more =>
      append_current more
        (if copied c then newWord +:+ String c EmptyString else newWord)
  end.

(** The outer loop (lines 113-146).  [word] is the part of the input from
    index [i] on; [word[i + 1]] is the terminator when [word[i]] is the last
    byte, and the terminator is not [replaceToken]. *)
Fixpoint replace_loop (pid : Z) (word newWord : string) : string :=
  match word with
  | EmptyString => newWord
  | String c rest =>
      match rest with
      | EmptyString =>
          if Ascii.eqb c replaceToken && Ascii.eqb NUL replaceToken
          then replace_loop pid rest (append_current (decimal pid) newWord)
          else replace_loop pid rest (append_current (String c EmptyString) newWord)
      | String c' rest' =>
          if Ascii.eqb c replaceToken && Ascii.eqb c' replaceToken
          then replace_loop pid rest' (append_current (decimal pid) newWord)
          else replace_loop pid rest (append_current (String c EmptyString) newWord)
      end
  end.

(** [pid] is the value of [getpid()]. *)
Definition stringReplace (pid : Z) (word : string) : string :=
  replace_loop pid word EmptyString.

(** *** The marker, and the expansion as the specification words it *)

(** [has_marker w]: two adjacent [$] occur somewhere in [w]. *)
Fixpoint has_marker (w : string) : bool :=
  match w with
  | EmptyString => false
  | String c rest =>
      match rest with
      | EmptyString => false
      | String c' _ =>
          (Ascii.eqb c replaceToken && Ascii.eqb c' replaceToken) || has_marker rest
      end
  end.

(** [free_of c s]: the byte [c] does not occur in [s]. *)
Fixpoint free_of (c : ascii) (s : string) : bool :=
  match s with
  | EmptyString => true
  | String x rest => negb (Ascii.eqb x c) && free_of c rest
  end.

(** [expansion pid w v]: [v] is [w] with every occurrence of the marker,
    found scanning from the left, replaced by the decimal form of [pid].
    In the second rule [pre +:+ "$"] is free of the marker, so the marker
    that is replaced is the leftmost one of the word. *)
Inductive expansion (pid : Z) : string -> string -> Prop :=
| expansion_free (w : string) :
    has_marker w = false -> expansion pid w w
| expansion_marker (pre post post' : string) :
    has_marker (pre +:+ "$") = false ->
    expansion pid post post' ->
    expansion pid (pre +:+ "$$" +:+ post) (pre +:+ decimal pid +:+ post').

(** ** The tokens of a line (main.c, lines 175, 208, 217, 236) *)

(** The delimiters are those of the string ["  \n"]. *)
Definition is_delim (c : ascii) : bool :=
  Ascii.eqb c space || Ascii.eqb c newline.

(** The tokens that the successive calls of [strtok_r] return for [line],
    in order: the maximal runs of bytes that are not delimiters.  [cur] is
    the token being read. *)
Fixpoint strtok_seq (cur line : string) : list string :=
  match line with
  | EmptyString =>
      match cur with EmptyString => [] | _ => [cur] end
  | String c rest =>
      if is_delim c
      then match cur with
           | EmptyString => strtok_seq EmptyString rest
           | _ => cur :: strtok_seq EmptyString rest
           end
      else strtok_seq (cur +:+ String c EmptyString) rest
  end.

(** ** The command descriptor and processInput (main.c, lines 46-51, 172-261) *)

Definition LINELENGTH : Z := 2048.
Definition ARGLENGTH : Z := 513.

Record command := Command {
  args : list (option string);
  inputFile : option string;
  outputFile : option string;
  isBackground : bool
}.

(** The state of the builder: the descriptor under construction, the
    counter [argPosition], and the stores that fell outside [args]. *)
Record builder := Builder {
  newCmd : command;
  argPosition : Z;
  stray : list (Z * string)
}.

Definition arg_at (c : command) (i : nat) : option string :=
  match args c !! i with
  | Some a => a
  | None => None
  end.

Definition set_args (a : list (option string)) (b : builder) : builder :=
  Builder (Command a (inputFile (newCmd b)) (outputFile (newCmd b))
             (isBackground (newCmd b)))
          (argPosition b) (stray b).

Definition set_inputFile (p : option string) (b : builder) : builder :=
  Builder (Command (args (newCmd b)) p (outputFile (newCmd b))
             (isBackground (newCmd b)))
          (argPosition b) (stray b).

Definition set_outputFile (p : option string) (b : builder) : builder :=
  Builder (Command (args (newCmd b)) (inputFile (newCmd b)) p
             (isBackground (newCmd b)))
          (argPosition b) (stray b).

Definition set_isBackground (v : bool) (b : builder) : builder :=
  Builder (Command (args (newCmd b)) (inputFile (newCmd b))
             (outputFile (newCmd b)) v)
          (argPosition b) (stray b).

Definition set_argPosition (n : Z) (b : builder) : builder :=
  Builder (newCmd b) n (stray b).

(** [newCmd->args[i] = v].  Within the array the slot is written; outside
    it the store is logged and the descriptor is left alone, which is not
    what the machine does (see the conventions). *)
Definition store_arg (i : Z) (v : string) (b : builder) : builder :=
  if (0 <=? i)%Z && (i <? Z.of_nat (length (args (newCmd b))))%Z
  then set_args (<[Z.to_nat i := Some v]> (args (newCmd b))) b
  else Builder (newCmd b) (argPosition b) (stray b ++ [(i, v)]).

(** Lines 185-194 and 177. *)
Definition fresh_builder : builder :=
  Builder (Command (replicate (Z.to_nat ARGLENGTH) None) None None false) 1 [].

(** Lines 229-232: the token is an argument. *)
Definition store_next (v : string) (b : builder) : builder :=
  if (argPosition b <=? ARGLENGTH)%Z
  then set_argPosition (argPosition b + 1) (store_arg (argPosition b) v b)
  else b.

(** The [while] loop of lines 196-237; [toks] are the tokens not yet
    returned by [strtok_r], the current one first. *)
Fixpoint consume (pid : Z) (toks : list string) (b : builder) : builder :=
  match toks with
  | [] => b
  | token :: rest =>
      let b := if isBackground (newCmd b) then set_isBackground false b else b in
      match arg_at (newCmd b) 0 with
      | None => consume pid rest (store_arg 0 (stringReplace pid token) b)
      | Some _ =>
          if String.eqb token "<" then
            match rest with
            | [] => b
            | path :: rest' =>
                consume pid rest' (set_inputFile (Some (stringReplace pid path)) b)
            end
          else if String.eqb token ">" then
            match rest with
            | [] => b
            | path :: rest' =>
                consume pid rest' (set_outputFile (Some (stringReplace pid path)) b)
            end
          else if String.eqb token "&" then
            consume pid rest (set_isBackground true b)
          else
            consume pid rest (store_next (stringReplace pid token) b)
      end
  end.

Definition dev_null : string := "/dev/null".

(** Lines 239-257. *)
Definition finish (fgMode : bool) (b : builder) : builder :=
  let b := if fgMode then set_isBackground false b else b in
  if isBackground (newCmd b) then
    let b := match inputFile (newCmd b) with
             | None => set_inputFile (Some dev_null) b
             | Some _ => b
             end in
    match outputFile (newCmd b) with
    | None => set_outputFile (Some dev_null) b
    | Some _ => b
    end
  else b.

(** [processInput] on the token sequence of the line; [None] is the [NULL]
    of line 181.  [fgMode] is the value of the global flag read at line 240. *)
Definition build (fgMode : bool) (pid : Z) (toks : list string) : option builder :=
  match toks with
  | [] => None
  | _ => Some (finish fgMode (consume pid toks fresh_builder))
  end.

Definition processInput_tokens (fgMode : bool) (pid : Z) (toks : list string)
  : option command :=
  option_map newCmd (build fgMode pid toks).

Definition processInput (fgMode : bool) (pid : Z) (line : string) : option command :=
  processInput_tokens fgMode pid (strtok_seq EmptyString line).

(** The stores of [processInput] that fell outside [args]. *)
Definition processInput_stray (fgMode : bool) (pid : Z) (line : string)
  : list (Z * string) :=
  match build fgMode pid (strtok_seq EmptyString line) with
  | Some b => stray b
  | None => []
  end.

(** ** Process-wide state, system calls and their answers *)

Inductive signal := SIGTERM | SIGINT | SIGTSTP | SIGCHLD.

(** What [waitpid] stores in [status] for a terminated child, as
    [WIFEXITED], [WEXITSTATUS] and [WTERMSIG] decode it.  [WNOHANG] without
    [WUNTRACED] reports terminated children only, so a status that is not an
    exit is a termination by signal. *)
Inductive wstatus :=
| Exited (code : Z)
| Signaled (sig : Z).

Definition WIFEXITED (s : wstatus) : bool :=
  match s with Exited _ => true | Signaled _ => false end.
Definition WEXITSTATUS (s : wstatus) : Z :=
  match s with Exited n => n | Signaled _ => 0 end.
Definition WTERMSIG (s : wstatus) : Z :=
  match s with Exited _ => 0 | Signaled n => n end.

Inductive event :=
| EWrite (bytes : string)           (* write, printf *)
| EPerror (prefix : string)         (* perror(prefix) *)
| EFork                             (* fork() was called *)
| EKill (pid : Z) (sig : signal)    (* kill(pid, sig) *)
| EWaitpid (pid : Z)                (* blocking waitpid(pid, .., 0) *)
| ESigaction (sig : signal)         (* a handler was installed *)
| EChdir (path : option string)     (* chdir; None is getenv("HOME") *)
| EExit (code : Z).                 (* _exit(code) *)

Definition QUEUE_SLOTS : nat := 50.
Definition CHILD_SLOTS : nat := 200.

(** The globals of lines 28-36, the status text of [main], the stores that
    fell outside [msgQueue], and the trace of system calls. *)
Record shell := Shell {
  msgQueue : list (option string);
  queuePosition : Z;
  children : list Z;
  fgMode : bool;
  stat : string;
  queue_stray : list (Z * string);
  trace : list event
}.

Definition log (e : event) (st : shell) : shell :=
  Shell (msgQueue st) (queuePosition st) (children st) (fgMode st) (stat st)
        (queue_stray st) (trace st ++ [e]).

Definition set_stat (s : string) (st : shell) : shell :=
  Shell (msgQueue st) (queuePosition st) (children st) (fgMode st) s
        (queue_stray st) (trace st).

Definition set_children (l : list Z) (st : shell) : shell :=
  Shell (msgQueue st) (queuePosition st) l (fgMode st) (stat st)
        (queue_stray st) (trace st).

Definition set_fgMode (v : bool) (st : shell) : shell :=
  Shell (msgQueue st) (queuePosition st) (children st) v (stat st)
        (queue_stray st) (trace st).

Definition set_msgQueue (q : list (option string)) (st : shell) : shell :=
  Shell q (queuePosition st) (children st) (fgMode st) (stat st)
        (queue_stray st) (trace st).

Definition set_queuePosition (n : Z) (st : shell) : shell :=
  Shell (msgQueue st) n (children st) (fgMode st) (stat st)
        (queue_stray st) (trace st).

(** The state at the start of [main]: zero-initialised globals. *)
Definition initial_shell : shell :=
  Shell (replicate QUEUE_SLOTS None) 0 (replicate CHILD_SLOTS 0%Z) false
        (line_of "exit value 0") [] [].

(** ** isValidLine (main.c, lines 63-74) *)

Definition isValidLine (firstChar : ascii) : bool :=
  if Ascii.eqb firstChar "#"%char then false
  else if Ascii.eqb firstChar newline then false
  else true.

(** ** The message queue (main.c, lines 412-442) *)

(** [msgQueue[queuePosition] = copy of line; queuePosition++].  Within the
    array the slot is written; outside it the store is logged, and the state
    that the model gives from there on is not one of the machine (see the
    conventions). *)
Definition pushMessageQueue (line : string) (st : shell) : shell :=
  let i := queuePosition st in
  let st :=
    if (0 <=? i)%Z && (i <? Z.of_nat (length (msgQueue st)))%Z
    then set_msgQueue (<[Z.to_nat i := Some line]> (msgQueue st)) st
    else Shell (msgQueue st) (queuePosition st) (children st) (fgMode st)
               (stat st) (queue_stray st ++ [(i, line)]) (trace st) in
  set_queuePosition (i + 1) st.

(** The body of the loop of [clearMessageQueue] at index [i]; [write] sends
    [strlen + 1] bytes, the message and its terminator. *)
Definition clear_slot (st : shell) (i : nat) : shell :=
  match msgQueue st !! i with
  | Some (Some m) =>
      set_msgQueue (<[i := None]> (msgQueue st))
        (log (EWrite (m +:+ String NUL EmptyString)) st)
  | _ => st
  end.

Definition clearMessageQueue (st : shell) : shell :=
  set_queuePosition 0 (foldl clear_slot st (seq 0 QUEUE_SLOTS)).

(** ** The job table *)

(** Lines 624-629: the first empty slot receives [childPid]; a full table
    is left as it is. *)
Fixpoint track_child (childPid : Z) (slots : list Z) : list Z :=
  match slots with
  | [] => []
  | x :: more =>
      if (x =? 0)%Z then childPid :: more else x :: track_child childPid more
  end.

(** Lines 520-525: the first slot equal to [childPid] is emptied. *)
Fixpoint untrack_child (childPid : Z) (slots : list Z) : list Z :=
  match slots with
  | [] => []
  | x :: more =>
      if (x =? childPid)%Z then 0%Z :: more else x :: untrack_child childPid more
  end.

(** ** handleSIGCHLD (main.c, lines 502-530) *)

Definition done_message (childPid : Z) (status : wstatus) : string :=
  if WIFEXITED status
  then line_of ("background pid " +:+ decimal childPid +:+ " is done: exit value "
                  +:+ decimal (WEXITSTATUS status))
  else line_of ("background pid " +:+ decimal childPid
                  +:+ " is done: terminated by signal "
                  +:+ decimal (WTERMSIG status)).

(** [terminated] are the children that have terminated and have not been
    waited for, in the order in which [waitpid(-1, &status, WNOHANG)] hands
    them out; their process ids are positive.  On the empty list [waitpid]
    returns 0 or -1 and the loop ends.  The result pairs the children still
    to be reaped with the new state. *)
Fixpoint handleSIGCHLD (terminated : list (positive * wstatus)) (st : shell)
  : list (positive * wstatus) * shell :=
  match terminated with
  | [] => ([], st)
  | (p, status) :: more =>
      let childPid := Z.pos p in
      if (childPid >? 0)%Z then
        let message := done_message childPid status in
        let st := set_children (untrack_child childPid (children st)) st in
        handleSIGCHLD more (pushMessageQueue message st)
      else (terminated, st)
  end.

(** ** handleSIGTSTP (main.c, lines 555-570) *)

Definition handleSIGTSTP (st : shell) : shell :=
  let st :=
    if fgMode st
    then log (EWrite (String newline (line_of "Exiting foreground-only mode")))
           (set_fgMode false st)
    else log (EWrite (String newline
                        (line_of "Entering foreground-only mode (& is now ignored)")))
           (set_fgMode true st) in
  log (EWrite ": ") st.

(** ** exitShell (main.c, lines 450-465) *)

Definition kill_slot (st : shell) (i : nat) : shell :=
  match children st !! i with
  | Some c =>
      if (c =? 0)%Z then st
      else set_children (<[i := 0%Z]> (children st)) (log (EKill c SIGTERM) st)
  | None => st
  end.

Definition exitShell (st : shell) : shell :=
  let st := clearMessageQueue st in
  let st := foldl kill_slot st (seq 0 CHILD_SLOTS) in
  log (EExit 3) st.

(** ** execCmd, on the side of the shell (main.c, lines 583-667) *)

(** The answers of the operating system during one command: what [fork]
    returns in the shell, the status that the blocking [waitpid] collects,
    and whether [chdir] succeeds. *)
Record answers := Answers {
  fork_result : Z;
  wait_status : wstatus;
  chdir_ok : bool
}.

Definition execCmd (line : command) (os : answers) (st : shell) : shell :=
  let st := log EFork st in
  let childPid := fork_result os in
  if (childPid =? -1)%Z then
    set_stat (line_of "exit value 1") (log (EPerror (line_of "fork()")) st)
  else if (childPid =? 0)%Z then
    st (* the child: it redirects, execs or exits, and never returns here *)
  else if isBackground line then
    let st := set_children (track_child childPid (children st)) st in
    let st := log (EWrite (line_of ("background pid is " +:+ decimal childPid))) st in
    log (ESigaction SIGCHLD) st
  else
    let st := log (ESigaction SIGINT) st in
    let st := log (EWaitpid childPid) st in
    if WIFEXITED (wait_status os)
    then set_stat (line_of ("exit value " +:+ decimal (WEXITSTATUS (wait_status os)))) st
    else set_stat (line_of ("terminated by signal "
                              +:+ decimal (WTERMSIG (wait_status os)))) st.

(** ** cd and status (main.c, lines 396-399, 476-491) *)

Definition cd (filePath : option string) (os : answers) (st : shell) : shell :=
  match filePath with
  | None => log (EChdir None) st
  | Some p =>
      let st := log (EChdir (Some p)) st in
      if chdir_ok os then st else log (EPerror "cd ") st
  end.

Definition status (st : shell) : shell := log (EWrite (stat st)) st.

(** ** One turn of the loop of main (main.c, lines 690-733) *)

Inductive turn :=
| Reprompt              (* the loop goes round: cmdLine is NULL again *)
| Terminated (code : Z) (* the process has ended *).

Definition first_byte (line : string) : ascii :=
  match line with
  | EmptyString => NUL
  | String c _ => c
  end.

(** The test of line 705; [read] is the length that [getline] returned,
    which is the length of [line] when [line] has no NUL byte inside. *)
Definition accepted (line : string) : bool :=
  let read := Z.of_nat (String.length line) in
  negb (read =? 0)%Z && (read <? LINELENGTH)%Z && isValidLine (first_byte line).

(** The descriptor that a turn of the loop builds for [line], if any. *)
Definition descriptor (mode : bool) (pid : Z) (line : string) : option command :=
  if accepted line then processInput mode pid line else None.

(** [line] is the line that [getline] delivered in this turn. *)
Definition main_turn (pid : Z) (os : answers) (line : string) (st : shell)
  : shell * turn :=
  let st := clearMessageQueue st in
  let st := log (EWrite ": ") st in
  match descriptor (fgMode st) pid line with
  | None => (st, Reprompt)
  | Some cmdLine =>
      match arg_at cmdLine 0 with
      | None => (st, Reprompt)
      | Some program =>
          if String.eqb program "exit" then (exitShell st, Terminated 3)
          else if String.eqb program "status" then (status st, Reprompt)
          else if String.eqb program "cd" then (cd (arg_at cmdLine 1) os st, Reprompt)
          else (execCmd cmdLine os st, Reprompt)
      end
  end.

(** A child was spawned in a run when its trace has a [fork]. *)
Definition is_fork (e : event) : bool :=
  match e with EFork => true | _ => false end.

Definition spawned (before after : shell) : bool :=
  existsb is_fork (drop (length (trace before)) (trace after)).

(** ** Vocabulary of the statements *)

(** The background flag of the descriptor built from [toks]; there is no
    flag when there is no descriptor. *)
Definition background_of (mode : bool) (pid : Z) (toks : list string) : bool :=
  match processInput_tokens mode pid toks with
  | Some c => isBackground c
  | None => false
  end.

Definition is_redirect (t : string) : bool :=
  String.eqb t "<" || String.eqb t ">".

(** The number of redirection operators at the head of a list. *)
Fixpoint leading_redirects (toks : list string) : nat :=
  match toks with
  | [] => 0
  | t :: more => if is_redirect t then S (leading_redirects more) else 0
  end.

(** [toks] ends in [&], and the redirection operators that stand directly
    before that [&] are even in number. *)
Definition trailing_background (toks : list string) : bool :=
  match reverse toks with
  | [] => false
  | t :: before => String.eqb t "&" && Nat.even (leading_redirects before)
  end.

(** The program has been stored: [args[0]] is not [NULL]. *)
Definition started (b : builder) : Prop := is_Some (arg_at (newCmd b) 0).

(** The paths that the loop of lines 196-237 stored: the redirections that
    the line gives explicitly. *)
Definition explicit_input (pid : Z) (toks : list string) : option string :=
  inputFile (newCmd (consume pid toks fresh_builder)).
Definition explicit_output (pid : Z) (toks : list string) : option string :=
  outputFile (newCmd (consume pid toks fresh_builder)).

(** What the loop keeps true of the builder once the program is stored:
    [args] has its 513 slots, and the only store that can fall outside it is
    the one at index 513, made when [argPosition] goes from 513 to 514. *)
Definition builder_inv (b : builder) : Prop :=
  started b
  /\ length (args (newCmd b)) = Z.to_nat ARGLENGTH
  /\ (1 <= argPosition b <= ARGLENGTH + 1)%Z
  /\ ((argPosition b <= ARGLENGTH)%Z -> stray b = [])
  /\ (argPosition b = (ARGLENGTH + 1)%Z -> exists v, stray b = [(ARGLENGTH, v)]).

(** The first byte of a line that is not a delimiter; NUL when there is none. *)
Fixpoint first_nonblank (line : string) : ascii :=
  match line with
  | EmptyString => NUL
  | String c rest => if is_delim c then first_nonblank rest else c
  end.

(** A line of delimiters only. *)
Fixpoint blank (line : string) : bool :=
  match line with
  | EmptyString => true
  | String c rest => is_delim c && blank rest
  end.

(** The line [a x x ... x] with [n] arguments [x], newline included. *)
Definition line_with_args (n : nat) : string :=
  line_of ("a" +:+ String.concat EmptyString (replicate n " x")).

(** The same line with a final [&]. *)
Definition line_with_args_bg (n : nat) : string :=
  line_of ("a" +:+ String.concat EmptyString (replicate n " x") +:+ " &").

(** [n] children with process ids 1 to [n], each exited with value 0, in the
    order of their ids. *)
Definition exited_children (n : nat) : list (positive * wstatus) :=
  map (fun k => (Pos.of_nat (S k), Exited 0)) (seq 0 n).

(** The messages waiting in the queue, in slot order, and the process ids
    in the job table, in slot order. *)
Definition queued (st : shell) : list string := omap id (msgQueue st).
Definition tracked (st : shell) : list Z := filter (fun c => c <> 0%Z) (children st).

Definition print_message (m : string) : event := EWrite (m +:+ String NUL EmptyString).
Definition terminate (c : Z) : event := EKill c SIGTERM.

(** [holds m q]: some slot of the queue [q] holds the message [m]. *)
Definition holds (m : string) (q : list (option string)) : bool :=
  existsb (fun slot => match slot with
                       | Some m' => String.eqb m' m
                       | None => false
                       end) q.

(** The arrays have their declared sizes. *)
Definition well_sized (st : shell) : Prop :=
  length (msgQueue st) = QUEUE_SLOTS /\ length (children st) = CHILD_SLOTS.

(** ** The child of execCmd (main.c, lines 344-386 and 595-617) *)

(** The child is a process of its own; its system calls are recorded in a
    trace of their own. *)
Inductive disposition := SIG_IGN | SIG_DFL.

Inductive child_event :=
| COpenRead (path : string)        (* open(path, O_RDONLY) *)
| COpenWrite (path : string)       (* open(path, O_WRONLY|O_CREAT|O_TRUNC, 0644) *)
| CDup2 (fd target : Z)            (* dup2(fd, target) *)
| CPrint (text : string)           (* printf *)
| CSignal (sig : signal) (d : disposition)
| CExecvp (file : option string) (argv : list (option string))
| CPerror                          (* perror(0) *)
| CExit (code : Z).                (* exit(code) *)

(** What the operating system answers to the child: the descriptors that
    the two [open]s return, the results of the two [dup2]s, and whether
    [execvp] replaces the program. *)
Record child_answers := ChildAnswers {
  open_read : Z;
  dup_read : Z;
  open_write : Z;
  dup_write : Z;
  exec_ok : bool
}.

(** The first half of [prepIO] (lines 346-364).  The result is the trace
    and whether the child is still running; the text copied into [stat]
    goes to the child's own copy, which dies with it. *)
Definition prepIO_input (inputFile : option string) (os : child_answers)
  : list child_event * bool :=
  match inputFile with
  | None => ([], true)
  | Some path =>
      if (open_read os =? -1)%Z then
        ([COpenRead path;
          CPrint (line_of ("cannot open " +:+ path +:+ " for input"));
          CExit 1], false)
      else if (dup_read os =? -1)%Z then
        ([COpenRead path; CDup2 (open_read os) 0; CExit 1], false)
      else ([COpenRead path; CDup2 (open_read os) 0], true)
  end.

(** The second half of [prepIO] (lines 367-385). *)
Definition prepIO_output (outputFile : option string) (os : child_answers)
  : list child_event * bool :=
  match outputFile with
  | None => ([], true)
  | Some path =>
      if (open_write os =? -1)%Z then
        ([COpenWrite path;
          CPrint (line_of ("cannot open " +:+ path +:+ " for output"));
          CExit 1], false)
      else if (dup_write os =? -1)%Z then
        ([COpenWrite path; CDup2 (open_write os) 1; CExit 1], false)
      else ([COpenWrite path; CDup2 (open_write os) 1], true)
  end.

Definition prepIO (inputFile outputFile : option string) (os : child_answers)
  : list child_event * bool :=
  let (ev, running) := prepIO_input inputFile os in
  if running then
    let (ev', running') := prepIO_output outputFile os in (ev ++ ev', running')
  else (ev, false).

(** [case 0] of [execCmd] (lines 595-617): the whole life of the child up
    to [execvp] or [exit]. *)
Definition execChild (line : command) (os : child_answers) : list child_event :=
  let (ev, running) := prepIO (inputFile line) (outputFile line) os in
  if running then
    ev ++ [CSignal SIGINT (if isBackground line then SIG_IGN else SIG_DFL);
           CSignal SIGTSTP SIG_IGN;
           CExecvp (arg_at line 0) (args line)]
       ++ (if exec_ok os then [] else [CPerror; CExit 1])
  else ev.

Definition is_exec (e : child_event) : bool :=
  match e with CExecvp _ _ => true | _ => false end.
Definition is_open_write (e : child_event) : bool :=
  match e with COpenWrite _ => true | _ => false end.

(** ** Vocabulary of the further statements *)

(** A token that is neither an operator nor [&]. *)
Definition plain (t : string) : bool :=
  negb (String.eqb t "<") && negb (String.eqb t ">") && negb (String.eqb t "&").

(** [settled toks]: read after the program, [toks] leaves no operator
    waiting for its operand; the operators at its end are even in number. *)
Definition settled (toks : list string) : bool :=
  Nat.even (leading_redirects (reverse toks)).

(** A string without delimiters. *)
Fixpoint delim_free (t : string) : bool :=
  match t with
  | EmptyString => true
  | String c rest => negb (is_delim c) && delim_free rest
  end.

(** The last byte of a string; NUL when it is empty. *)
Fixpoint last_byte (s : string) : ascii :=
  match s with
  | EmptyString => NUL
  | String c EmptyString => c
  | String _ rest => last_byte rest
  end.

(** The messages that [handleSIGCHLD] queues for [terminated], in order. *)
Definition done_messages (terminated : list (positive * wstatus)) : list string :=
  map (fun z => done_message (Z.pos (fst z)) (snd z)) terminated.

(** The queue as [clearMessageQueue] leaves it. *)
Definition drained (st : shell) : Prop :=
  msgQueue st = replicate QUEUE_SLOTS None /\ queuePosition st = 0%Z.

(** What [handleSIGTSTP] writes when the mode was [mode], and what [n]
    deliveries write, the first one arriving in mode [mode]. *)
Definition announcement (mode : bool) : list event :=
  [EWrite (String newline
             (line_of (if mode
                       then "Exiting foreground-only mode"
                       else "Entering foreground-only mode (& is now ignored)")));
   EWrite ": "].

Fixpoint announcements (n : nat) (mode : bool) : list event :=
  match n with
  | 0 => []
  | S k => announcement mode ++ announcements k (negb mode)
  end.

(** The state after [n] deliveries of SIGTSTP. *)
Definition after_SIGTSTP (n : nat) (st : shell) : shell :=
  Nat.iter n handleSIGTSTP st.

Definition is_builtin (program : string) : bool :=
  String.eqb program "exit" || String.eqb program "status" || String.eqb program "cd".

(** The text that [execCmd] leaves in [stat] after a foreground child. *)
Definition status_text (s : wstatus) : string :=
  match s with
  | Exited n => line_of ("exit value " +:+ decimal n)
  | Signaled n => line_of ("terminated by signal " +:+ decimal n)
  end.

(** The cases of the child: which paths are given, which calls fail. *)
Ltac child_cases line os :=
  unfold execChild, prepIO, prepIO_input, prepIO_output;
  destruct line as [a [i|] [o|] bg]; cbn [inputFile outputFile isBackground arg_at args];
  repeat match goal with
         | |- context [(?x =? -1)%Z] => destruct (Z.eqb_spec x (-1))
         end;
  destruct (exec_ok os); cbn.

(** * Properties *)

(** ** Strings *)

Lemma append_empty_r (s : string) : s +:+ EmptyString = s.
Proof. induction s as [|c r IH]; simpl; [reflexivity | now rewrite IH]. Qed.

Lemma append_assoc_s (a b c : string) : (a +:+ b) +:+ c = a +:+ (b +:+ c).
Proof. induction a as [|x r IH]; simpl; [reflexivity | now rewrite IH]. Qed.

Lemma append_snoc (a : string) (c : ascii) (b : string) :
  (a +:+ String c EmptyString) +:+ b = a +:+ String c b.
Proof. now rewrite append_assoc_s. Qed.

(** Induction that follows the scan of [replace_loop]: one byte or two at a
    time. *)
Lemma string_pair_ind (P : string -> Prop) :
  P EmptyString ->
  (forall c, P (String c EmptyString)) ->
  (forall c c' r, P r -> P (String c' r) -> P (String c (String c' r))) ->
  forall w, P w.
Proof.
  intros H0 H1 H2 w.
  assert (H : P w /\ forall c, P (String c w)).
  { induction w as [|c' r [IHr IHc]].
    - split; [exact H0 | exact H1].
    - split; [apply IHc | intros c; apply H2; [exact IHr | apply IHc]]. }
  exact (proj1 H).
Qed.

(** ** stringReplace: the equations of the scan *)

Lemma copied_always (c : ascii) : copied c = true.
Proof.
  unfold copied.
  destruct (Ascii.eqb_spec c newline) as [->|_]; reflexivity.
Qed.

Lemma append_current_spec (currentChar newWord : string) :
  append_current currentChar newWord = newWord +:+ currentChar.
Proof.
  revert newWord.
  induction currentChar as [|c more IH]; intros newWord; simpl.
  - now rewrite append_empty_r.
  - rewrite copied_always, IH. apply append_snoc.
Qed.

Lemma replace_loop_step (pid : Z) (c c' : ascii) (r newWord : string) :
  replace_loop pid (String c (String c' r)) newWord
  = if Ascii.eqb c replaceToken && Ascii.eqb c' replaceToken
    then replace_loop pid r (append_current (decimal pid) newWord)
    else replace_loop pid (String c' r) (append_current (String c EmptyString) newWord).
Proof. reflexivity. Qed.

Lemma replace_loop_acc (pid : Z) (word newWord : string) :
  replace_loop pid word newWord = newWord +:+ replace_loop pid word EmptyString.
Proof.
  revert newWord.
  induction word as [| c | c c' r IHr IHc] using string_pair_ind; intros newWord.
  - simpl. now rewrite append_empty_r.
  - cbn [replace_loop]. rewrite andb_false_r, !append_current_spec. reflexivity.
  - rewrite !replace_loop_step.
    destruct (Ascii.eqb c replaceToken && Ascii.eqb c' replaceToken).
    + rewrite (IHr (append_current _ newWord)), (IHr (append_current _ EmptyString)).
      rewrite !append_current_spec. simpl. now rewrite append_assoc_s.
    + rewrite (IHc (append_current _ newWord)), (IHc (append_current _ EmptyString)).
      rewrite !append_current_spec. simpl. now rewrite append_assoc_s.
Qed.

Lemma stringReplace_empty (pid : Z) : stringReplace pid EmptyString = EmptyString.
Proof. reflexivity. Qed.

Lemma stringReplace_last (pid : Z) (c : ascii) :
  stringReplace pid (String c EmptyString) = String c EmptyString.
Proof.
  unfold stringReplace. cbn [replace_loop].
  rewrite andb_false_r, append_current_spec. reflexivity.
Qed.

Lemma stringReplace_marker (pid : Z) (r : string) :
  stringReplace pid (String replaceToken (String replaceToken r))
  = decimal pid +:+ stringReplace pid r.
Proof.
  unfold stringReplace. rewrite replace_loop_step.
  rewrite Ascii.eqb_refl. cbn [andb].
  rewrite replace_loop_acc, append_current_spec. reflexivity.
Qed.

Lemma stringReplace_byte (pid : Z) (c c' : ascii) (r : string) :
  Ascii.eqb c replaceToken && Ascii.eqb c' replaceToken = false ->
  stringReplace pid (String c (String c' r))
  = String c (stringReplace pid (String c' r)).
Proof.
  intros H. unfold stringReplace. rewrite replace_loop_step, H.
  rewrite replace_loop_acc, append_current_spec. reflexivity.
Qed.

Lemma both_tokens (c c' : ascii) :
  Ascii.eqb c replaceToken && Ascii.eqb c' replaceToken = true ->
  c = replaceToken /\ c' = replaceToken.
Proof.
  intros H. apply andb_true_iff in H as [H1 H2].
  split; now apply Ascii.eqb_eq.
Qed.

(** ** The marker *)

Lemma has_marker_step (c c' : ascii) (r : string) :
  has_marker (String c (String c' r))
  = (Ascii.eqb c replaceToken && Ascii.eqb c' replaceToken) || has_marker (String c' r).
Proof. reflexivity. Qed.

Lemma has_marker_cons (c : ascii) (w : string) :
  has_marker w = true -> has_marker (String c w) = true.
Proof.
  destruct w as [|c' r]; [discriminate|].
  intros H. rewrite has_marker_step, H. apply orb_true_r.
Qed.

Lemma has_marker_spec (w : string) :
  has_marker w = true <-> exists pre post, w = pre +:+ "$$" +:+ post.
Proof.
  split.
  - induction w as [| c | c c' r IHr IHc] using string_pair_ind.
    + discriminate.
    + discriminate.
    + rewrite has_marker_step. intros H. apply orb_true_iff in H as [H|H].
      * apply both_tokens in H as [-> ->]. now exists EmptyString, r.
      * destruct (IHc H) as (pre & post & E).
        exists (String c pre), post. simpl. now rewrite E.
  - intros (pre & post & ->).
    induction pre as [|c pre IH]; [reflexivity|].
    apply has_marker_cons, IH.
Qed.

Lemma has_marker_inv (c c' : ascii) (r : string) :
  has_marker (String c (String c' r)) = false ->
  Ascii.eqb c replaceToken && Ascii.eqb c' replaceToken = false
  /\ has_marker (String c' r) = false.
Proof. rewrite has_marker_step. apply orb_false_iff. Qed.

(** A word that ends where the marker begins: [pre] followed by one [$]. *)
Lemma has_marker_before (c : ascii) (pre : string) :
  has_marker (String c (pre +:+ "$")) = false ->
  has_marker (pre +:+ "$") = false.
Proof.
  destruct pre as [|c' r]; [reflexivity|].
  simpl String.append. intros H. now apply has_marker_inv in H.
Qed.

Lemma has_marker_skip (d x : string) :
  free_of replaceToken d = true -> has_marker (d +:+ x) = has_marker x.
Proof.
  induction d as [|y d IH]; [reflexivity|].
  intros H. cbn [free_of] in H. apply andb_true_iff in H as [Hy Hd].
  specialize (IH Hd).
  change (has_marker (String y (d +:+ x)) = has_marker x).
  destruct (d +:+ x) as [|c' r] eqn:E.
  - destruct d; [|discriminate]. simpl in E. now subst x.
  - rewrite has_marker_step, IH.
    apply negb_true_iff in Hy. now rewrite Hy.
Qed.

Lemma string_of_uint_free (d : Decimal.uint) :
  free_of replaceToken (NilEmpty.string_of_uint d) = true.
Proof. induction d; simpl; auto. Qed.

Lemma decimal_free (n : Z) : free_of replaceToken (decimal n) = true.
Proof.
  unfold decimal.
  destruct (Z.to_int n); simpl; apply string_of_uint_free.
Qed.

(** ** stringReplace: what it returns *)

Lemma stringReplace_free (pid : Z) (w : string) :
  has_marker w = false -> stringReplace pid w = w.
Proof.
  induction w as [| c | c c' r IHr IHc] using string_pair_ind; intros H.
  - reflexivity.
  - apply stringReplace_last.
  - apply has_marker_inv in H as [Hc Hr].
    now rewrite stringReplace_byte, IHc.
Qed.

Lemma expansion_byte (pid : Z) (c : ascii) (w v : string) :
  Ascii.eqb c replaceToken && Ascii.eqb (match w with
                                         | EmptyString => NUL
                                         | String c' _ => c'
                                         end) replaceToken = false ->
  expansion pid w v -> expansion pid (String c w) (String c v).
Proof.
  intros Hc He. destruct He as [w Hw | pre post post' Hpre Hpost].
  - apply expansion_free.
    destruct w as [|c' r]; [reflexivity|].
    now rewrite has_marker_step, Hc, Hw.
  - apply (expansion_marker pid (String c pre) post post'); [|exact Hpost].
    destruct pre as [|c' r].
    + simpl in *. now rewrite Hc.
    + simpl String.append in *. now rewrite has_marker_step, Hc, Hpre.
Qed.

Lemma stringReplace_expansion (pid : Z) (w : string) :
  expansion pid w (stringReplace pid w).
Proof.
  induction w as [| c | c c' r IHr IHc] using string_pair_ind.
  - now apply expansion_free.
  - rewrite stringReplace_last. now apply expansion_free.
  - destruct (Ascii.eqb c replaceToken && Ascii.eqb c' replaceToken) eqn:E.
    + apply both_tokens in E as [-> ->].
      rewrite stringReplace_marker.
      now apply (expansion_marker pid EmptyString r (stringReplace pid r)).
    + rewrite stringReplace_byte by exact E.
      now apply expansion_byte.
Qed.

(** The leftmost marker of a word is at one place only. *)
Lemma leftmost_unique (pre1 pre2 post1 post2 : string) :
  has_marker (pre1 +:+ "$") = false ->
  has_marker (pre2 +:+ "$") = false ->
  pre1 +:+ "$$" +:+ post1 = pre2 +:+ "$$" +:+ post2 ->
  pre1 = pre2 /\ post1 = post2.
Proof.
  revert pre2.
  induction pre1 as [|c pre1 IH]; intros [|c2 pre2] H1 H2 E.
  - simpl in E. injection E as E. now split.
  - exfalso. simpl in E. injection E as <- E.
    destruct pre2 as [|c3 pre2]; simpl in E; inversion E; subst;
      simpl in H2; discriminate H2.
  - exfalso. simpl in E. injection E as -> E.
    destruct pre1 as [|c3 pre1]; simpl in E; inversion E; subst;
      simpl in H1; discriminate H1.
  - simpl in E. injection E as <- E.
    apply has_marker_before in H1, H2.
    destruct (IH pre2 H1 H2 E) as [-> ->]. now split.
Qed.

(** [expansion] determines its result: it is a function of the word. *)
Lemma expansion_functional (pid : Z) (w v1 v2 : string) :
  expansion pid w v1 -> expansion pid w v2 -> v1 = v2.
Proof.
  intros H1. revert v2.
  induction H1 as [w Hw | pre post post' Hpre Hpost IH]; intros v2 H2.
  - inversion H2 as [w' Hw' | pre2 post2 post2' Hpre2 Hpost2]; subst; [reflexivity|].
    assert (Hm : has_marker (pre2 +:+ "$$" +:+ post2) = true)
      by (apply has_marker_spec; eauto).
    congruence.
  - remember (pre +:+ "$$" +:+ post) as w eqn:Ew.
    destruct H2 as [w Hw | pre2 post2 post2' Hpre2 Hpost2].
    + assert (Hm : has_marker w = true) by (apply has_marker_spec; eauto).
      congruence.
    + destruct (leftmost_unique _ _ _ _ Hpre2 Hpre Ew) as [-> ->].
      now rewrite (IH _ Hpost2).
Qed.

Lemma stringReplace_starts (pid : Z) (w : string) :
  first_byte (stringReplace pid w) = replaceToken -> first_byte w = replaceToken.
Proof.
  destruct w as [|c [|c' r]].
  - discriminate.
  - now rewrite stringReplace_last.
  - destruct (Ascii.eqb c replaceToken && Ascii.eqb c' replaceToken) eqn:E.
    + now apply both_tokens in E as [-> ->].
    + now rewrite stringReplace_byte.
Qed.

Lemma has_marker_first (c : ascii) (w : string) :
  Ascii.eqb c replaceToken && Ascii.eqb (first_byte w) replaceToken = false ->
  has_marker (String c w) = has_marker w.
Proof.
  destruct w as [|c' r]; [reflexivity|].
  simpl first_byte. intros H. now rewrite has_marker_step, H.
Qed.

Lemma stringReplace_clean (pid : Z) (w : string) :
  has_marker (stringReplace pid w) = false.
Proof.
  induction w as [| c | c c' r IHr IHc] using string_pair_ind.
  - reflexivity.
  - now rewrite stringReplace_last.
  - destruct (Ascii.eqb c replaceToken && Ascii.eqb c' replaceToken) eqn:E.
    + apply both_tokens in E as [-> ->].
      rewrite stringReplace_marker, has_marker_skip; [exact IHr | apply decimal_free].
    + rewrite stringReplace_byte by exact E.
      rewrite has_marker_first; [exact IHc|].
      destruct (Ascii.eqb_spec c replaceToken) as [->|Hc]; [|reflexivity].
      simpl andb in *.
      destruct (Ascii.eqb_spec (first_byte (stringReplace pid (String c' r))) replaceToken)
        as [Hf|Hf]; [|reflexivity].
      apply stringReplace_starts in Hf. simpl in Hf. subst c'.
      discriminate E.
Qed.

(** C5.  For every token, [stringReplace] returns the token with every
    occurrence of the marker [$$], found scanning from the left, replaced by
    the decimal form of the process id: the result is an [expansion] of the
    token, and the only one.  A token without the marker is returned
    unchanged. *)
Theorem C5_stringReplace_expands (pid : Z) (word : string) :
  expansion pid word (stringReplace pid word)
  /\ (forall v, expansion pid word v -> v = stringReplace pid word)
  /\ (has_marker word = false -> stringReplace pid word = word).
Proof.
  split; [apply stringReplace_expansion|]. split.
  - intros v Hv.
    exact (expansion_functional pid word _ _ Hv (stringReplace_expansion pid word)).
  - apply stringReplace_free.
Qed.

Lemma C5_stringReplace_expands_witness :
  stringReplace 12345 "file$$log" = "file12345log"
  /\ stringReplace 12345 "plain" = "plain".
Proof.
  split.
  - symmetry.
    apply (proj1 (proj2 (C5_stringReplace_expands 12345 "file$$log"))).
    apply (expansion_marker 12345 "file" "log" "log"); [reflexivity|].
    apply expansion_free. reflexivity.
  - apply (proj2 (proj2 (C5_stringReplace_expands 12345 "plain"))). reflexivity.
Defined.

(** C10.  The result of [stringReplace] never contains the marker [$$]:
    it is not of the form [pre $$ post].  Hence expanding twice is the same
    as expanding once. *)
Theorem C10_stringReplace_idempotent (pid : Z) (word : string) :
  has_marker (stringReplace pid word) = false
  /\ (forall pre post, stringReplace pid word <> pre +:+ "$$" +:+ post)
  /\ stringReplace pid (stringReplace pid word) = stringReplace pid word.
Proof.
  pose proof (stringReplace_clean pid word) as Hc.
  split; [exact Hc|]. split.
  - intros pre post E.
    assert (Hm : has_marker (stringReplace pid word) = true)
      by (apply has_marker_spec; eauto).
    congruence.
  - now apply stringReplace_free.
Qed.

(** ** The builder: invariants of the loop *)

Lemma list_pair_ind {A : Type} (P : list A -> Prop) :
  P [] ->
  (forall t, P [t]) ->
  (forall t u r, P r -> P (u :: r) -> P (t :: u :: r)) ->
  forall l, P l.
Proof.
  intros H0 H1 H2 l.
  assert (H : P l /\ forall t, P (t :: l)).
  { induction l as [|u r [IHr IHu]].
    - split; [exact H0 | exact H1].
    - split; [apply IHu | intros t; apply H2; [exact IHr | apply IHu]]. }
  exact (proj1 H).
Qed.

(** The reset of lines 198-200 clears the flag in either case. *)
Lemma reset_background (b : builder) :
  (if isBackground (newCmd b) then set_isBackground false b else b)
  = set_isBackground false b.
Proof. destruct b as [[a i o [|]] n s]; reflexivity. Qed.

Lemma consume_nil (pid : Z) (b : builder) : consume pid [] b = b.
Proof. reflexivity. Qed.

Lemma consume_first (pid : Z) (token : string) (rest : list string) (b : builder) :
  arg_at (newCmd b) 0 = None ->
  consume pid (token :: rest) b
  = consume pid rest (store_arg 0 (stringReplace pid token) (set_isBackground false b)).
Proof.
  intros H. cbn [consume]. rewrite reset_background.
  change (arg_at (newCmd (set_isBackground false b)) 0) with (arg_at (newCmd b) 0).
  now rewrite H.
Qed.

Lemma consume_started (pid : Z) (token : string) (rest : list string) (b : builder) :
  started b ->
  consume pid (token :: rest) b
  = let b := set_isBackground false b in
    if String.eqb token "<" then
      match rest with
      | [] => b
      | path :: rest' =>
          consume pid rest' (set_inputFile (Some (stringReplace pid path)) b)
      end
    else if String.eqb token ">" then
      match rest with
      | [] => b
      | path :: rest' =>
          consume pid rest' (set_outputFile (Some (stringReplace pid path)) b)
      end
    else if String.eqb token "&" then consume pid rest (set_isBackground true b)
    else consume pid rest (store_next (stringReplace pid token) b).
Proof.
  intros [a Ha]. cbn [consume]. rewrite reset_background.
  change (arg_at (newCmd (set_isBackground false b)) 0) with (arg_at (newCmd b) 0).
  now rewrite Ha.
Qed.

Lemma store_arg_started (i : Z) (v : string) (b : builder) :
  started b \/ i = 0%Z /\ (0 < length (args (newCmd b)))%nat ->
  started (store_arg i v b).
Proof.
  unfold started, store_arg, arg_at. intros H.
  destruct ((0 <=? i)%Z && (i <? Z.of_nat (length (args (newCmd b))))%Z) eqn:E.
  - cbn. apply andb_true_iff in E as [E1 E2].
    apply Z.leb_le in E1. apply Z.ltb_lt in E2.
    destruct (decide (Z.to_nat i = 0%nat)) as [Hi|Hi].
    + rewrite Hi, list_lookup_insert_eq by lia. eauto.
    + rewrite list_lookup_insert_ne by lia.
      destruct H as [H|[H _]]; [exact H | lia].
  - destruct H as [H|[-> H]]; [exact H|].
    cbn in E. apply Z.ltb_ge in E. lia.
Qed.

Lemma store_arg_flags (i : Z) (v : string) (b : builder) :
  isBackground (newCmd (store_arg i v b)) = isBackground (newCmd b)
  /\ inputFile (newCmd (store_arg i v b)) = inputFile (newCmd b)
  /\ outputFile (newCmd (store_arg i v b)) = outputFile (newCmd b)
  /\ argPosition (store_arg i v b) = argPosition b
  /\ length (args (newCmd (store_arg i v b))) = length (args (newCmd b)).
Proof.
  unfold store_arg.
  destruct ((0 <=? i)%Z && (i <? Z.of_nat (length (args (newCmd b))))%Z);
    cbn; rewrite ?length_insert; auto.
Qed.

Lemma store_arg_in_bounds (i : Z) (v : string) (b : builder) :
  (0 <= i < Z.of_nat (length (args (newCmd b))))%Z ->
  stray (store_arg i v b) = stray b.
Proof.
  intros [H0 H1]. unfold store_arg.
  apply Z.leb_le in H0. apply Z.ltb_lt in H1. now rewrite H0, H1.
Qed.

Lemma store_arg_out_of_bounds (i : Z) (v : string) (b : builder) :
  (i < 0 \/ Z.of_nat (length (args (newCmd b))) <= i)%Z ->
  stray (store_arg i v b) = stray b ++ [(i, v)].
Proof.
  intros H. unfold store_arg.
  destruct (Z.leb_spec 0 i), (Z.ltb_spec i (Z.of_nat (length (args (newCmd b)))));
    cbn; try reflexivity; lia.
Qed.

Lemma store_next_facts (v : string) (b : builder) :
  (started b -> started (store_next v b))
  /\ isBackground (newCmd (store_next v b)) = isBackground (newCmd b)
  /\ inputFile (newCmd (store_next v b)) = inputFile (newCmd b)
  /\ outputFile (newCmd (store_next v b)) = outputFile (newCmd b)
  /\ length (args (newCmd (store_next v b))) = length (args (newCmd b)).
Proof.
  unfold store_next.
  destruct (argPosition b <=? ARGLENGTH)%Z; [|tauto].
  unfold set_argPosition, started. cbn [newCmd].
  destruct (store_arg_flags (argPosition b) v b) as (H1 & H2 & H3 & _ & H5).
  repeat split; try assumption.
  intros Hb. apply store_arg_started. now left.
Qed.

Lemma store_next_background (v : string) (b : builder) :
  isBackground (newCmd (store_next v b)) = isBackground (newCmd b).
Proof. apply store_next_facts. Qed.

Lemma store_next_started (v : string) (b : builder) :
  started b -> started (store_next v b).
Proof. apply store_next_facts. Qed.

Lemma store_next_input (v : string) (b : builder) :
  inputFile (newCmd (store_next v b)) = inputFile (newCmd b).
Proof. apply store_next_facts. Qed.

Lemma store_next_output (v : string) (b : builder) :
  outputFile (newCmd (store_next v b)) = outputFile (newCmd b).
Proof. apply store_next_facts. Qed.

(** ** The background flag as a function of the tokens *)

Lemma leading_redirects_snoc_plain (m : list string) (t : string) :
  is_redirect t = false -> leading_redirects (m ++ [t]) = leading_redirects m.
Proof.
  intros Ht. induction m as [|x m IH]; simpl.
  - now rewrite Ht.
  - destruct (is_redirect x); [now rewrite IH | reflexivity].
Qed.

Lemma leading_redirects_snoc_pair (m : list string) (u t : string) :
  is_redirect t = true ->
  Nat.even (leading_redirects ((m ++ [u]) ++ [t])) = Nat.even (leading_redirects m).
Proof.
  intros Ht. induction m as [|x m IH]; simpl.
  - rewrite Ht. now destruct (is_redirect u).
  - destruct (is_redirect x); [|reflexivity].
    rewrite !Nat.even_succ, <- !Nat.negb_even. now rewrite IH.
Qed.

Lemma trailing_background_plain (t : string) (l : list string) :
  is_redirect t = false -> l <> [] ->
  trailing_background (t :: l) = trailing_background l.
Proof.
  intros Ht Hl. unfold trailing_background. rewrite reverse_cons.
  destruct (reverse l) as [|x m] eqn:E.
  - exfalso. apply Hl. apply (f_equal reverse) in E.
    now rewrite reverse_involutive in E.
  - simpl. now rewrite leading_redirects_snoc_plain.
Qed.

Lemma trailing_background_operand (t u : string) (r : list string) :
  is_redirect t = true ->
  trailing_background (t :: u :: r)
  = match r with [] => false | _ => trailing_background r end.
Proof.
  intros Ht. unfold trailing_background. rewrite !reverse_cons.
  destruct (reverse r) as [|x m] eqn:E.
  - apply (f_equal reverse) in E. rewrite reverse_involutive in E. subst r.
    simpl. rewrite Ht. simpl. apply andb_false_r.
  - destruct r as [|y r']; [discriminate E|].
    simpl. now rewrite leading_redirects_snoc_pair.
Qed.

Lemma is_redirect_no (t : string) :
  String.eqb t "<" = false -> String.eqb t ">" = false -> is_redirect t = false.
Proof. unfold is_redirect. now intros -> ->. Qed.

Lemma consume_background (pid : Z) (toks : list string) (b : builder) :
  started b ->
  isBackground (newCmd (consume pid toks b))
  = match toks with
    | [] => isBackground (newCmd b)
    | _ => trailing_background toks
    end.
Proof.
  revert b.
  induction toks as [| t | t u r IHr IHu] using list_pair_ind; intros b Hb.
  - reflexivity.
  - rewrite consume_started by exact Hb. cbn zeta.
    destruct (String.eqb_spec t "<") as [->|H1]; [reflexivity|].
    destruct (String.eqb_spec t ">") as [->|H2]; [reflexivity|].
    destruct (String.eqb_spec t "&") as [->|H3]; [reflexivity|].
    rewrite consume_nil. unfold trailing_background. simpl.
    apply String.eqb_neq in H3. rewrite H3.
    now rewrite store_next_background.
  - rewrite consume_started by exact Hb. cbn zeta.
    destruct (String.eqb_spec t "<") as [->|H1].
    { rewrite IHr by exact Hb. rewrite trailing_background_operand by reflexivity.
      now destruct r. }
    destruct (String.eqb_spec t ">") as [->|H2].
    { rewrite IHr by exact Hb. rewrite trailing_background_operand by reflexivity.
      now destruct r. }
    apply String.eqb_neq in H1, H2.
    rewrite trailing_background_plain by (auto using is_redirect_no).
    destruct (String.eqb t "&").
    + now rewrite IHu by exact Hb.
    + rewrite IHu; [reflexivity|].
      now apply store_next_started.
Qed.

Lemma leading_redirects_split (l : list string) :
  exists lead rest,
    l = lead ++ rest
    /\ Forall (fun t => is_redirect t = true) lead
    /\ length lead = leading_redirects l
    /\ (forall y, head rest = Some y -> is_redirect y = false).
Proof.
  induction l as [|x l (lead & rest & E & Hall & Hlen & Hrest)].
  - exists [], []. repeat split; [constructor | discriminate].
  - simpl. destruct (is_redirect x) eqn:Hx.
    + exists (x :: lead), rest. rewrite E at 1. repeat split.
      * now constructor.
      * simpl. now rewrite Hlen.
      * exact Hrest.
    + exists [], (x :: l). repeat split; [constructor|].
      intros y [= <-]. exact Hx.
Qed.

Lemma leading_redirects_app (lead rest : list string) :
  Forall (fun t => is_redirect t = true) lead ->
  (forall y, head rest = Some y -> is_redirect y = false) ->
  leading_redirects (lead ++ rest) = length lead.
Proof.
  intros Hall Hrest. induction Hall as [|x lead Hx Hall IH]; simpl.
  - destruct rest as [|y rest]; [reflexivity|].
    simpl. now rewrite (Hrest y eq_refl).
  - now rewrite Hx, IH.
Qed.

Lemma trailing_background_spec (toks : list string) :
  trailing_background toks = true
  <-> exists pre ops,
        toks = pre ++ ops ++ ["&"]
        /\ Forall (fun t => is_redirect t = true) ops
        /\ Nat.even (length ops) = true
        /\ (forall t, last pre = Some t -> is_redirect t = false).
Proof.
  unfold trailing_background. split.
  - destruct (reverse toks) as [|x before] eqn:E; [discriminate|].
    intros H. apply andb_true_iff in H as [Hx Hev].
    apply String.eqb_eq in Hx. subst x.
    destruct (leading_redirects_split before) as (lead & rest & -> & Hall & Hlen & Hrest).
    exists (reverse rest), (reverse lead).
    apply (f_equal reverse) in E. rewrite reverse_involutive in E.
    rewrite reverse_cons, reverse_app in E. repeat split.
    + now rewrite E, <- app_assoc.
    + now apply Forall_reverse.
    + now rewrite length_reverse, Hlen.
    + intros t. rewrite last_reverse. apply Hrest.
  - intros (pre & ops & -> & Hall & Hev & Hpre).
    rewrite !reverse_app. simpl.
    rewrite leading_redirects_app.
    + now rewrite length_reverse, Hev.
    + now apply Forall_reverse.
    + intros y. rewrite head_reverse. apply Hpre.
Qed.

(** ** processInput: the descriptor *)

Lemma fresh_not_started : arg_at (newCmd fresh_builder) 0 = None.
Proof. reflexivity. Qed.

Lemma first_token_started (pid : Z) (token : string) :
  started (store_arg 0 (stringReplace pid token) (set_isBackground false fresh_builder)).
Proof.
  apply store_arg_started. right. split; [reflexivity|].
  cbn. rewrite length_replicate. unfold ARGLENGTH. lia.
Qed.

Lemma finish_background (mode : bool) (b : builder) :
  isBackground (newCmd (finish mode b)) = negb mode && isBackground (newCmd b).
Proof. destruct mode, b as [[a [i|] [o|] [|]] n s]; reflexivity. Qed.

Lemma finish_paths (mode : bool) (b : builder) :
  isBackground (newCmd (finish mode b)) = true ->
  inputFile (newCmd (finish mode b))
  = Some (match inputFile (newCmd b) with Some p => p | None => dev_null end)
  /\ outputFile (newCmd (finish mode b))
     = Some (match outputFile (newCmd b) with Some p => p | None => dev_null end).
Proof. destruct mode, b as [[a [i|] [o|] [|]] n s]; cbn; intros H; now try discriminate H. Qed.

Lemma build_cons (mode : bool) (pid : Z) (prog : string) (rest : list string) :
  build mode pid (prog :: rest)
  = Some (finish mode
            (consume pid rest
               (store_arg 0 (stringReplace pid prog)
                  (set_isBackground false fresh_builder)))).
Proof. unfold build. now rewrite consume_first by apply fresh_not_started. Qed.

Lemma background_of_eq (mode : bool) (pid : Z) (toks : list string) :
  background_of mode pid toks = negb mode && trailing_background (tail toks).
Proof.
  unfold background_of, processInput_tokens.
  destruct toks as [|prog rest]; [now rewrite andb_false_r|].
  rewrite build_cons. cbn [option_map tail].
  rewrite finish_background, consume_background by apply first_token_started.
  destruct rest; [|reflexivity].
  now rewrite (proj1 (store_arg_flags _ _ _)).
Qed.

Lemma background_of_spec (mode : bool) (pid : Z) (toks : list string) :
  background_of mode pid toks = true
  <-> mode = false
      /\ exists prog pre ops,
           toks = prog :: pre ++ ops ++ ["&"]
           /\ Forall (fun t => is_redirect t = true) ops
           /\ Nat.even (length ops) = true
           /\ (forall t, last pre = Some t -> is_redirect t = false).
Proof.
  rewrite background_of_eq, andb_true_iff, negb_true_iff, trailing_background_spec.
  split.
  - intros [Hm (pre & ops & E & H)]. split; [exact Hm|].
    destruct toks as [|prog rest]; simpl in E.
    + exfalso. destruct pre as [|x pre]; [destruct ops as [|y ops]|]; discriminate E.
    + exists prog, pre, ops. now rewrite E.
  - intros [Hm (prog & pre & ops & -> & H)]. split; [exact Hm|].
    now exists pre, ops.
Qed.

(** C4, as the code has it.  The background flag of the descriptor is true
    exactly when foreground-only mode is off, the sequence has a program
    followed by further tokens, its last token is [&], and that [&] is not
    taken as the operand of a redirection: the operators [<] and [>] that
    stand directly before it ([ops], preceded by a token that is not an
    operator, or by the program) are even in number.  In particular an [&]
    followed by further tokens leaves the flag false. *)
Theorem C4_background_iff (mode : bool) (pid : Z) (toks : list string) :
  background_of mode pid toks = true
  <-> mode = false
      /\ exists prog pre ops,
           toks = prog :: pre ++ ops ++ ["&"]
           /\ Forall (fun t => is_redirect t = true) ops
           /\ Nat.even (length ops) = true
           /\ (forall t, last pre = Some t -> is_redirect t = false).
Proof. apply background_of_spec. Qed.

(** C4 as the specification states it (the flag is true exactly when the
    last token is [&]) fails: for a lone [&], which is the program; for an
    [&] that [<] takes as its operand; and in foreground-only mode. *)
Lemma C4_counterexample :
  ~ (background_of false 1234 ["&"] = true <-> last ["&"] = Some "&")
  /\ ~ (background_of false 1234 ["cat"; "<"; "&"] = true
        <-> last ["cat"; "<"; "&"] = Some "&")
  /\ ~ (background_of true 1234 ["sleep"; "5"; "&"] = true
        <-> last ["sleep"; "5"; "&"] = Some "&").
Proof.
  repeat split; intros [_ H]; specialize (H eq_refl); vm_compute in H; discriminate H.
Qed.

(** The second half of C4 on its own: a token after [&] un-sets it. *)
Lemma background_needs_last (mode : bool) (pid : Z) (toks : list string) :
  background_of mode pid toks = true -> last toks = Some "&".
Proof.
  intros H. apply background_of_spec in H as (_ & prog & pre & ops & -> & _).
  change (prog :: pre ++ ops ++ ["&"]) with ([prog] ++ pre ++ ops ++ ["&"]).
  now rewrite !app_assoc, last_snoc.
Qed.

Lemma foreground_only_tokens (pid : Z) (toks : list string) (cmd : command) :
  processInput_tokens true pid toks = Some cmd -> isBackground cmd = false.
Proof.
  intros H. pose proof (background_of_eq true pid toks) as E.
  unfold background_of in E. now rewrite H in E.
Qed.

(** C7.  When foreground-only mode is active as the construction of the
    descriptor ends, the descriptor's background flag is false, whatever the
    tokens. *)
Theorem C7_foreground_only (pid : Z) (toks : list string) (cmd : command) :
  processInput_tokens true pid toks = Some cmd -> isBackground cmd = false.
Proof. apply foreground_only_tokens. Qed.

Lemma C7_foreground_only_witness :
  exists cmd, processInput_tokens true 1234 ["sleep"; "5"; "&"] = Some cmd
              /\ isBackground cmd = false.
Proof.
  eexists. split; [reflexivity|].
  apply (C7_foreground_only 1234 ["sleep"; "5"; "&"]). reflexivity.
Defined.

(** The same on lines, with the flag as [handleSIGTSTP] sets it. *)
Lemma foreground_only_after_toggle (st : shell) (pid : Z) (line : string) (cmd : command) :
  fgMode st = false ->
  processInput (fgMode (handleSIGTSTP st)) pid line = Some cmd ->
  isBackground cmd = false.
Proof.
  intros Hm. unfold handleSIGTSTP. rewrite Hm. cbn.
  apply foreground_only_tokens.
Qed.

(** ** The redirections *)

Lemma consume_plain (pid : Z) (token : string) (rest : list string) (b : builder) :
  started b ->
  String.eqb token "<" = false -> String.eqb token ">" = false ->
  String.eqb token "&" = false ->
  consume pid (token :: rest) b
  = consume pid rest (store_next (stringReplace pid token) (set_isBackground false b)).
Proof.
  intros Hb H1 H2 H3. rewrite consume_started by exact Hb.
  cbn zeta. now rewrite H1, H2, H3.
Qed.

Lemma consume_amp (pid : Z) (rest : list string) (b : builder) :
  started b -> consume pid ("&" :: rest) b = consume pid rest (set_isBackground true b).
Proof. intros Hb. now rewrite consume_started by exact Hb. Qed.

Lemma consume_input (pid : Z) (path : string) (rest : list string) (b : builder) :
  started b ->
  consume pid ("<" :: path :: rest) b
  = consume pid rest (set_inputFile (Some (stringReplace pid path))
                        (set_isBackground false b)).
Proof. intros Hb. now rewrite consume_started by exact Hb. Qed.

Lemma consume_output (pid : Z) (path : string) (rest : list string) (b : builder) :
  started b ->
  consume pid (">" :: path :: rest) b
  = consume pid rest (set_outputFile (Some (stringReplace pid path))
                        (set_isBackground false b)).
Proof. intros Hb. now rewrite consume_started by exact Hb. Qed.

Lemma consume_lone_operator (pid : Z) (t : string) (b : builder) :
  started b -> is_redirect t = true ->
  consume pid [t] b = set_isBackground false b.
Proof.
  intros Hb Ht. rewrite consume_started by exact Hb. cbn zeta.
  unfold is_redirect in Ht.
  destruct (String.eqb t "<"); [reflexivity|].
  destruct (String.eqb t ">"); [reflexivity | discriminate Ht].
Qed.

(** The three kinds of token that the loop tells apart once the program is
    stored. *)
Lemma token_cases (t : string) :
  t = "<" \/ t = ">" \/ t = "&"
  \/ (String.eqb t "<" = false /\ String.eqb t ">" = false /\ String.eqb t "&" = false).
Proof.
  destruct (String.eqb_spec t "<"); [tauto|].
  destruct (String.eqb_spec t ">"); [tauto|].
  destruct (String.eqb_spec t "&"); tauto.
Qed.

Lemma consume_input_absent (pid : Z) (toks : list string) (b : builder) :
  started b -> "<" ∉ toks ->
  inputFile (newCmd (consume pid toks b)) = inputFile (newCmd b).
Proof.
  revert b.
  induction toks as [| t | t u r IHr IHu] using list_pair_ind; intros b Hb Hno.
  - reflexivity.
  - destruct (token_cases t) as [->|[->|[->|(H1 & H2 & H3)]]].
    + exfalso. apply Hno. left.
    + now rewrite consume_lone_operator.
    + now rewrite consume_amp.
    + rewrite consume_plain, consume_nil by assumption.
      now rewrite store_next_input.
  - apply not_elem_of_cons in Hno as [Ht Hno].
    destruct (token_cases t) as [->|[->|[->|(H1 & H2 & H3)]]].
    + congruence.
    + rewrite consume_output by exact Hb. apply not_elem_of_cons in Hno as [_ Hno].
      now rewrite IHr.
    + rewrite consume_amp by exact Hb. now rewrite IHu.
    + rewrite consume_plain by assumption.
      rewrite IHu; [now rewrite store_next_input | now apply store_next_started | exact Hno].
Qed.

Lemma consume_output_absent (pid : Z) (toks : list string) (b : builder) :
  started b -> ">" ∉ toks ->
  outputFile (newCmd (consume pid toks b)) = outputFile (newCmd b).
Proof.
  revert b.
  induction toks as [| t | t u r IHr IHu] using list_pair_ind; intros b Hb Hno.
  - reflexivity.
  - destruct (token_cases t) as [->|[->|[->|(H1 & H2 & H3)]]].
    + now rewrite consume_lone_operator.
    + exfalso. apply Hno. left.
    + now rewrite consume_amp.
    + rewrite consume_plain, consume_nil by assumption.
      now rewrite store_next_output.
  - apply not_elem_of_cons in Hno as [Ht Hno].
    destruct (token_cases t) as [->|[->|[->|(H1 & H2 & H3)]]].
    + rewrite consume_input by exact Hb. apply not_elem_of_cons in Hno as [_ Hno].
      now rewrite IHr.
    + congruence.
    + rewrite consume_amp by exact Hb. now rewrite IHu.
    + rewrite consume_plain by assumption.
      rewrite IHu; [now rewrite store_next_output | now apply store_next_started | exact Hno].
Qed.

(** A path stored by the loop is the expansion of the token that follows
    an operator. *)
Lemma consume_input_origin (pid : Z) (toks : list string) (b : builder) (p : string) :
  started b ->
  inputFile (newCmd (consume pid toks b)) = Some p ->
  inputFile (newCmd b) = Some p
  \/ exists pre t post, toks = pre ++ "<" :: t :: post /\ p = stringReplace pid t.
Proof.
  revert b.
  induction toks as [| t | t u r IHr IHu] using list_pair_ind; intros b Hb Hp.
  - now left.
  - left. rewrite <- Hp.
    destruct (token_cases t) as [->|[->|[->|(H1 & H2 & H3)]]].
    + now rewrite consume_lone_operator.
    + now rewrite consume_lone_operator.
    + now rewrite consume_amp.
    + rewrite consume_plain, consume_nil by assumption.
      now rewrite store_next_input.
  - destruct (token_cases t) as [->|[->|[->|(H1 & H2 & H3)]]].
    + rewrite consume_input in Hp by exact Hb.
      apply IHr in Hp; [|exact Hb].
      destruct Hp as [E|(pre & t & post & -> & ->)].
      * right. exists [], u, r. split; [reflexivity|]. cbn in E. congruence.
      * right. now exists ("<" :: u :: pre), t, post.
    + rewrite consume_output in Hp by exact Hb.
      apply IHr in Hp; [|exact Hb].
      destruct Hp as [E|(pre & t & post & -> & ->)].
      * now left.
      * right. now exists (">" :: u :: pre), t, post.
    + rewrite consume_amp in Hp by exact Hb.
      apply IHu in Hp; [|exact Hb].
      destruct Hp as [E|(pre & t & post & E & ->)].
      * now left.
      * right. exists ("&" :: pre), t, post. now rewrite E.
    + rewrite consume_plain in Hp by assumption.
      apply IHu in Hp; [|now apply store_next_started].
      destruct Hp as [E|(pre & t' & post & E & ->)].
      * left. now rewrite store_next_input in E.
      * right. exists (t :: pre), t', post. now rewrite E.
Qed.

Lemma consume_output_origin (pid : Z) (toks : list string) (b : builder) (p : string) :
  started b ->
  outputFile (newCmd (consume pid toks b)) = Some p ->
  outputFile (newCmd b) = Some p
  \/ exists pre t post, toks = pre ++ ">" :: t :: post /\ p = stringReplace pid t.
Proof.
  revert b.
  induction toks as [| t | t u r IHr IHu] using list_pair_ind; intros b Hb Hp.
  - now left.
  - left. rewrite <- Hp.
    destruct (token_cases t) as [->|[->|[->|(H1 & H2 & H3)]]].
    + now rewrite consume_lone_operator.
    + now rewrite consume_lone_operator.
    + now rewrite consume_amp.
    + rewrite consume_plain, consume_nil by assumption.
      now rewrite store_next_output.
  - destruct (token_cases t) as [->|[->|[->|(H1 & H2 & H3)]]].
    + rewrite consume_input in Hp by exact Hb.
      apply IHr in Hp; [|exact Hb].
      destruct Hp as [E|(pre & t & post & -> & ->)].
      * now left.
      * right. now exists ("<" :: u :: pre), t, post.
    + rewrite consume_output in Hp by exact Hb.
      apply IHr in Hp; [|exact Hb].
      destruct Hp as [E|(pre & t & post & -> & ->)].
      * right. exists [], u, r. split; [reflexivity|]. cbn in E. congruence.
      * right. now exists (">" :: u :: pre), t, post.
    + rewrite consume_amp in Hp by exact Hb.
      apply IHu in Hp; [|exact Hb].
      destruct Hp as [E|(pre & t & post & E & ->)].
      * now left.
      * right. exists ("&" :: pre), t, post. now rewrite E.
    + rewrite consume_plain in Hp by assumption.
      apply IHu in Hp; [|now apply store_next_started].
      destruct Hp as [E|(pre & t' & post & E & ->)].
      * left. now rewrite store_next_output in E.
      * right. exists (t :: pre), t', post. now rewrite E.
Qed.

Lemma explicit_paths_start (pid : Z) (prog : string) :
  inputFile (newCmd (store_arg 0 (stringReplace pid prog)
                       (set_isBackground false fresh_builder))) = None
  /\ outputFile (newCmd (store_arg 0 (stringReplace pid prog)
                          (set_isBackground false fresh_builder))) = None.
Proof.
  destruct (store_arg_flags 0 (stringReplace pid prog)
              (set_isBackground false fresh_builder)) as (_ & -> & -> & _).
  now split.
Qed.

(** ** The argument array *)

Lemma first_token_inv (pid : Z) (prog : string) :
  builder_inv (store_arg 0 (stringReplace pid prog)
                 (set_isBackground false fresh_builder)).
Proof.
  split; [apply first_token_started|].
  destruct (store_arg_flags 0 (stringReplace pid prog)
              (set_isBackground false fresh_builder)) as (_ & _ & _ & Hn & Hl).
  rewrite Hn, Hl. cbn [argPosition set_isBackground fresh_builder newCmd args].
  rewrite length_replicate. unfold ARGLENGTH.
  split; [reflexivity|]. split; [lia|]. split.
  - intros _. rewrite store_arg_in_bounds; [reflexivity|].
    cbn. rewrite length_replicate. unfold ARGLENGTH. lia.
  - lia.
Qed.

Lemma store_next_inv (v : string) (b : builder) :
  builder_inv b -> builder_inv (store_next v b).
Proof.
  intros (Hs & Hl & Hn & H0 & H1).
  split; [now apply store_next_started|].
  unfold store_next. destruct (Z.leb_spec (argPosition b) ARGLENGTH) as [Hle|Hgt].
  - unfold set_argPosition. cbn [newCmd argPosition stray].
    rewrite (proj2 (proj2 (proj2 (proj2 (store_arg_flags _ _ _))))).
    split; [exact Hl|]. split; [lia|].
    destruct (Z.ltb_spec (argPosition b) ARGLENGTH) as [Hlt|Hge].
    + rewrite store_arg_in_bounds.
      * split; [auto | lia].
      * rewrite Hl, Z2Nat.id by (unfold ARGLENGTH; lia). lia.
    + rewrite store_arg_out_of_bounds.
      * assert (E : argPosition b = ARGLENGTH) by lia.
        rewrite (H0 Hle), E. split; [lia | eauto].
      * right. rewrite Hl, Z2Nat.id by (unfold ARGLENGTH; lia). lia.
  - repeat split; auto; lia.
Qed.

Lemma consume_inv (pid : Z) (toks : list string) (b : builder) :
  builder_inv b ->
  builder_inv (consume pid toks b)
  /\ (argPosition (consume pid toks b) <= argPosition b + Z.of_nat (length toks))%Z.
Proof.
  revert b.
  induction toks as [| t | t u r IHr IHu] using list_pair_ind; intros b Hb.
  - split; [exact Hb | cbn; lia].
  - pose proof (proj1 Hb) as Hs.
    destruct (token_cases t) as [->|[->|[->|(H1 & H2 & H3)]]].
    + rewrite consume_lone_operator by easy. split; [exact Hb | cbn; lia].
    + rewrite consume_lone_operator by easy. split; [exact Hb | cbn; lia].
    + rewrite consume_amp by easy. split; [exact Hb | cbn; lia].
    + rewrite consume_plain, consume_nil by assumption.
      split; [now apply store_next_inv|].
      unfold store_next. destruct (argPosition _ <=? ARGLENGTH)%Z.
      * unfold set_argPosition. cbn [argPosition set_isBackground length]. lia.
      * cbn [argPosition set_isBackground length]. lia.
  - pose proof (proj1 Hb) as Hs.
    destruct (token_cases t) as [->|[->|[->|(H1 & H2 & H3)]]].
    + rewrite consume_input by exact Hs.
      destruct (IHr (set_inputFile (Some (stringReplace pid u))
                       (set_isBackground false b)) Hb) as [Hi Hn].
      split; [exact Hi|]. cbn [argPosition set_inputFile set_isBackground] in Hn.
      cbn [length]. lia.
    + rewrite consume_output by exact Hs.
      destruct (IHr (set_outputFile (Some (stringReplace pid u))
                       (set_isBackground false b)) Hb) as [Hi Hn].
      split; [exact Hi|]. cbn [argPosition set_outputFile set_isBackground] in Hn.
      cbn [length]. lia.
    + rewrite consume_amp by exact Hs.
      destruct (IHu (set_isBackground true b) Hb) as [Hi Hn].
      split; [exact Hi|]. cbn [argPosition set_isBackground] in Hn.
      cbn [length] in *. lia.
    + rewrite consume_plain by assumption.
      destruct (IHu (store_next (stringReplace pid t) (set_isBackground false b)))
        as [Hi Hn]; [now apply store_next_inv|].
      split; [exact Hi|].
      assert (argPosition (store_next (stringReplace pid t) (set_isBackground false b))
              <= argPosition b + 1)%Z.
      { unfold store_next. destruct (argPosition _ <=? ARGLENGTH)%Z.
        - unfold set_argPosition. cbn [argPosition set_isBackground]. lia.
        - cbn [argPosition set_isBackground]. lia. }
      cbn [length] in *. lia.
Qed.

Lemma finish_stray (mode : bool) (b : builder) :
  stray (finish mode b) = stray b
  /\ args (newCmd (finish mode b)) = args (newCmd b).
Proof. destruct mode, b as [[a [i|] [o|] [|]] n s]; now split. Qed.

(** The array keeps its 513 slots, and at most one store falls outside it:
    the one at index 513. *)
Lemma build_stray_cases (mode : bool) (pid : Z) (toks : list string) (b : builder) :
  build mode pid toks = Some b ->
  length (args (newCmd b)) = Z.to_nat ARGLENGTH
  /\ (stray b = [] \/ exists v, stray b = [(ARGLENGTH, v)]).
Proof.
  destruct toks as [|prog rest]; [discriminate|].
  rewrite build_cons. intros [= <-].
  destruct (finish_stray mode (consume pid rest
              (store_arg 0 (stringReplace pid prog)
                 (set_isBackground false fresh_builder)))) as [-> ->].
  destruct (consume_inv pid rest _ (first_token_inv pid prog))
    as [(_ & Hl & Hn & H0 & H1) _].
  split; [exact Hl|].
  destruct (Z.eq_dec (argPosition (consume pid rest
              (store_arg 0 (stringReplace pid prog)
                 (set_isBackground false fresh_builder)))) (ARGLENGTH + 1)%Z) as [E|E].
  - right. now apply H1.
  - left. apply H0. lia.
Qed.

(** A program with at most 512 further tokens is stored within the array. *)
Lemma build_in_bounds (mode : bool) (pid : Z) (toks : list string) (b : builder) :
  build mode pid toks = Some b ->
  (length toks <= 513)%nat ->
  stray b = [].
Proof.
  destruct toks as [|prog rest]; [discriminate|].
  rewrite build_cons. intros [= <-] Hlen.
  destruct (finish_stray mode (consume pid rest
              (store_arg 0 (stringReplace pid prog)
                 (set_isBackground false fresh_builder)))) as [-> _].
  destruct (consume_inv pid rest _ (first_token_inv pid prog))
    as [(_ & _ & _ & H0 & _) Hn].
  apply H0.
  destruct (store_arg_flags 0 (stringReplace pid prog)
              (set_isBackground false fresh_builder)) as (_ & _ & _ & Ha & _).
  rewrite Ha in Hn. cbn [argPosition set_isBackground fresh_builder] in Hn.
  cbn [length] in Hlen. unfold ARGLENGTH. lia.
Qed.

(** C1, at the input on which the code departs from it.  The line
    [a x ... x] with 513 arguments is short enough to be accepted and has
    514 tokens; building its descriptor stores the 513th argument at index
    513 of [args], whose slots are 0 to 512.  With 512 arguments nothing is
    stored outside. *)
Theorem C1_stray_store (pid : Z) :
  accepted (line_with_args 513) = true
  /\ length (strtok_seq EmptyString (line_with_args 513)) = 514%nat
  /\ processInput_stray false pid (line_with_args 513) = [(513%Z, "x")]
  /\ processInput_stray false pid (line_with_args 512) = [].
Proof. vm_compute. repeat split; reflexivity. Qed.

(** ** The message queue *)

Lemma pushMessageQueue_room (line : string) (st : shell) :
  (0 <= queuePosition st < Z.of_nat (length (msgQueue st)))%Z ->
  pushMessageQueue line st
  = Shell (<[Z.to_nat (queuePosition st) := Some line]> (msgQueue st))
          (queuePosition st + 1) (children st) (fgMode st) (stat st)
          (queue_stray st) (trace st).
Proof.
  intros [H0 H1]. unfold pushMessageQueue.
  apply Z.leb_le in H0. apply Z.ltb_lt in H1. now rewrite H0, H1.
Qed.

(** With the queue full the store goes past the last slot: no slot changes,
    no message is dropped, and the counter still advances. *)
Lemma pushMessageQueue_full (line : string) (st : shell) :
  (Z.of_nat (length (msgQueue st)) <= queuePosition st)%Z ->
  pushMessageQueue line st
  = Shell (msgQueue st) (queuePosition st + 1) (children st) (fgMode st) (stat st)
          (queue_stray st ++ [(queuePosition st, line)]) (trace st).
Proof.
  intros H. unfold pushMessageQueue.
  apply Z.ltb_ge in H. now rewrite H, andb_false_r.
Qed.

Lemma pushMessageQueue_other (line : string) (st : shell) :
  children (pushMessageQueue line st) = children st
  /\ trace (pushMessageQueue line st) = trace st
  /\ fgMode (pushMessageQueue line st) = fgMode st
  /\ stat (pushMessageQueue line st) = stat st
  /\ queuePosition (pushMessageQueue line st) = (queuePosition st + 1)%Z
  /\ length (msgQueue (pushMessageQueue line st)) = length (msgQueue st).
Proof.
  unfold pushMessageQueue.
  destruct ((0 <=? queuePosition st)%Z
            && (queuePosition st <? Z.of_nat (length (msgQueue st)))%Z);
    cbn; rewrite ?length_insert; auto 10.
Qed.

Lemma pushMessageQueue_below (line : string) (st : shell) (i : nat) :
  (0 <= queuePosition st)%Z -> (i < Z.to_nat (queuePosition st))%nat ->
  msgQueue (pushMessageQueue line st) !! i = msgQueue st !! i.
Proof.
  intros H0 Hi. unfold pushMessageQueue.
  destruct ((0 <=? queuePosition st)%Z
            && (queuePosition st <? Z.of_nat (length (msgQueue st)))%Z); cbn.
  - apply list_lookup_insert_ne. lia.
  - reflexivity.
Qed.

(** ** The job table *)

Lemma untrack_child_length (p : Z) (slots : list Z) :
  length (untrack_child p slots) = length slots.
Proof.
  induction slots as [|x more IH]; [reflexivity|].
  simpl. destruct (x =? p)%Z; simpl; now rewrite ?IH.
Qed.

(** A slot is left as it is, or it held [p] and is now empty. *)
Lemma untrack_child_slot (p : Z) (slots : list Z) (i : nat) (c : Z) :
  slots !! i = Some c ->
  untrack_child p slots !! i = Some c
  \/ (c = p /\ untrack_child p slots !! i = Some 0%Z).
Proof.
  revert i. induction slots as [|x more IH]; intros i Hi; [discriminate|].
  simpl. destruct (Z.eqb_spec x p) as [->|Hx].
  - destruct i as [|i]; simpl in *; [injection Hi as <-|]; auto.
  - destruct i as [|i]; simpl in *; auto.
Qed.

Lemma untrack_child_other (p : Z) (slots : list Z) (i : nat) (c : Z) :
  slots !! i = Some c -> c <> p -> untrack_child p slots !! i = Some c.
Proof.
  intros Hi Hc. destruct (untrack_child_slot p slots i c Hi) as [H|[H _]];
    [exact H | contradiction].
Qed.

Lemma untrack_child_first (p : Z) (slots : list Z) (i : nat) :
  slots !! i = Some p ->
  (forall j, (j < i)%nat -> slots !! j <> Some p) ->
  untrack_child p slots !! i = Some 0%Z.
Proof.
  revert i. induction slots as [|x more IH]; intros i Hi Hfirst; [discriminate|].
  simpl. destruct (Z.eqb_spec x p) as [->|Hx].
  - destruct i as [|i]; [reflexivity|].
    exfalso. apply (Hfirst 0%nat); [lia | reflexivity].
  - destruct i as [|i]; simpl in *; [congruence|].
    apply IH; [exact Hi|].
    intros j Hj. apply (Hfirst (S j)). lia.
Qed.

(** ** handleSIGCHLD *)

Lemma handleSIGCHLD_cons (p : positive) (s : wstatus)
  (more : list (positive * wstatus)) (st : shell) :
  handleSIGCHLD ((p, s) :: more) st
  = handleSIGCHLD more
      (pushMessageQueue (done_message (Z.pos p) s)
         (set_children (untrack_child (Z.pos p) (children st)) st)).
Proof. reflexivity. Qed.

Lemma handleSIGCHLD_drains (terminated : list (positive * wstatus)) (st : shell) :
  fst (handleSIGCHLD terminated st) = [].
Proof.
  revert st. induction terminated as [|[p s] more IH]; intros st; [reflexivity|].
  rewrite handleSIGCHLD_cons. apply IH.
Qed.

Lemma handleSIGCHLD_position (terminated : list (positive * wstatus)) (st : shell) :
  queuePosition (snd (handleSIGCHLD terminated st))
  = (queuePosition st + Z.of_nat (length terminated))%Z
  /\ length (msgQueue (snd (handleSIGCHLD terminated st))) = length (msgQueue st)
  /\ length (children (snd (handleSIGCHLD terminated st))) = length (children st)
  /\ trace (snd (handleSIGCHLD terminated st)) = trace st.
Proof.
  revert st. induction terminated as [|[p s] more IH]; intros st.
  - cbn. repeat split. lia.
  - rewrite handleSIGCHLD_cons.
    destruct (IH (pushMessageQueue (done_message (Z.pos p) s)
                    (set_children (untrack_child (Z.pos p) (children st)) st)))
      as (-> & -> & -> & ->).
    destruct (pushMessageQueue_other (done_message (Z.pos p) s)
                (set_children (untrack_child (Z.pos p) (children st)) st))
      as (-> & -> & _ & _ & -> & ->).
    cbn [set_children queuePosition msgQueue children trace length].
    rewrite untrack_child_length. repeat split. lia.
Qed.

Lemma handleSIGCHLD_below (terminated : list (positive * wstatus)) (st : shell) (i : nat) :
  (0 <= queuePosition st)%Z -> (i < Z.to_nat (queuePosition st))%nat ->
  msgQueue (snd (handleSIGCHLD terminated st)) !! i = msgQueue st !! i.
Proof.
  revert st. induction terminated as [|[p s] more IH]; intros st H0 Hi; [reflexivity|].
  rewrite handleSIGCHLD_cons, IH.
  - now rewrite pushMessageQueue_below.
  - rewrite (proj1 (proj2 (proj2 (proj2 (proj2 (pushMessageQueue_other _ _)))))).
    cbn. lia.
  - rewrite (proj1 (proj2 (proj2 (proj2 (proj2 (pushMessageQueue_other _ _)))))).
    cbn. lia.
Qed.

Lemma handleSIGCHLD_queued (terminated : list (positive * wstatus)) (st : shell)
  (k : nat) (p : positive) (s : wstatus) :
  (0 <= queuePosition st)%Z ->
  (queuePosition st + Z.of_nat (length terminated)
   <= Z.of_nat (length (msgQueue st)))%Z ->
  terminated !! k = Some (p, s) ->
  msgQueue (snd (handleSIGCHLD terminated st)) !! (Z.to_nat (queuePosition st) + k)%nat
  = Some (Some (done_message (Z.pos p) s)).
Proof.
  revert st k.
  induction terminated as [|[q t] more IH]; intros st k H0 Hroom Hk; [discriminate|].
  rewrite handleSIGCHLD_cons. cbn [length] in Hroom.
  set (st0 := set_children (untrack_child (Z.pos q) (children st)) st).
  assert (Hst1 : pushMessageQueue (done_message (Z.pos q) t) st0
                 = Shell (<[Z.to_nat (queuePosition st)
                            := Some (done_message (Z.pos q) t)]> (msgQueue st))
                     (queuePosition st + 1) (children st0) (fgMode st) (stat st)
                     (queue_stray st) (trace st)).
  { rewrite pushMessageQueue_room; [reflexivity|]. subst st0. cbn. lia. }
  rewrite Hst1.
  match goal with |- context [handleSIGCHLD more ?x] => set (st1 := x) end.
  destruct k as [|k].
  - injection Hk as <- <-.
    rewrite handleSIGCHLD_below by (subst st1; cbn; lia).
    subst st1. cbn. rewrite Nat.add_0_r. apply list_lookup_insert_eq. lia.
  - cbn in Hk.
    replace (Z.to_nat (queuePosition st) + S k)%nat
      with (Z.to_nat (queuePosition st1) + k)%nat by (subst st1; cbn; lia).
    apply IH; subst st1; cbn; rewrite ?length_insert; try lia. exact Hk.
Qed.

Lemma handleSIGCHLD_stays_empty (terminated : list (positive * wstatus))
  (st : shell) (i : nat) :
  children st !! i = Some 0%Z ->
  children (snd (handleSIGCHLD terminated st)) !! i = Some 0%Z.
Proof.
  revert st. induction terminated as [|[q t] more IH]; intros st Hi; [exact Hi|].
  rewrite handleSIGCHLD_cons. apply IH.
  rewrite (proj1 (pushMessageQueue_other _ _)). cbn.
  destruct (untrack_child_slot (Z.pos q) _ _ _ Hi) as [H|[_ H]]; exact H.
Qed.

Lemma handleSIGCHLD_untracks (terminated : list (positive * wstatus)) (st : shell)
  (i : nat) (p : positive) (s : wstatus) :
  (p, s) ∈ terminated ->
  children st !! i = Some (Z.pos p) ->
  (forall j, (j < i)%nat -> children st !! j <> Some (Z.pos p)) ->
  children (snd (handleSIGCHLD terminated st)) !! i = Some 0%Z.
Proof.
  revert st.
  induction terminated as [|[q t] more IH]; intros st Hin Hi Hfirst.
  - now apply elem_of_nil in Hin.
  - rewrite handleSIGCHLD_cons.
    destruct (decide (q = p)) as [->|Hq].
    + apply handleSIGCHLD_stays_empty.
      rewrite (proj1 (pushMessageQueue_other _ _)). cbn.
      now apply untrack_child_first.
    + apply elem_of_cons in Hin as [Hin|Hin]; [congruence|].
      apply IH; [exact Hin | |].
      * rewrite (proj1 (pushMessageQueue_other _ _)). cbn.
        apply untrack_child_other; [exact Hi | congruence].
      * intros j Hj. rewrite (proj1 (pushMessageQueue_other _ _)). cbn.
        destruct (children st !! j) as [c|] eqn:Ej.
        -- destruct (untrack_child_slot (Z.pos q) _ _ _ Ej) as [H|[_ H]];
             rewrite H; [|discriminate].
           rewrite <- Ej. now apply Hfirst.
        -- intros H. apply lookup_lt_Some in H. apply lookup_ge_None in Ej.
           rewrite untrack_child_length in H. lia.
Qed.

Lemma handleSIGCHLD_keeps (terminated : list (positive * wstatus)) (st : shell)
  (i : nat) (c : Z) :
  children st !! i = Some c ->
  (forall p s, (p, s) ∈ terminated -> c <> Z.pos p) ->
  children (snd (handleSIGCHLD terminated st)) !! i = Some c.
Proof.
  revert st. induction terminated as [|[q t] more IH]; intros st Hi Hc; [exact Hi|].
  rewrite handleSIGCHLD_cons. apply IH.
  - rewrite (proj1 (pushMessageQueue_other _ _)). cbn.
    apply untrack_child_other; [exact Hi|]. apply (Hc q t). left.
  - intros p s Hin. apply (Hc p s). now right.
Qed.

Lemma done_message_text (childPid : Z) (s : wstatus) :
  done_message childPid s
  = match s with
    | Exited n =>
        line_of ("background pid " +:+ decimal childPid
                   +:+ " is done: exit value " +:+ decimal n)
    | Signaled n =>
        line_of ("background pid " +:+ decimal childPid
                   +:+ " is done: terminated by signal " +:+ decimal n)
    end.
Proof. destruct s; reflexivity. Qed.

Lemma handleSIGCHLD_app (l1 l2 : list (positive * wstatus)) (st : shell) :
  handleSIGCHLD (l1 ++ l2) st = handleSIGCHLD l2 (snd (handleSIGCHLD l1 st)).
Proof.
  revert st. induction l1 as [|[p s] l1 IH]; intros st; [reflexivity|].
  cbn [app]. rewrite !handleSIGCHLD_cons. apply IH.
Qed.

(** With room for all of them, every store of the handler is inside the
    queue. *)
Lemma handleSIGCHLD_in_bounds (terminated : list (positive * wstatus)) (st : shell) :
  (0 <= queuePosition st)%Z ->
  (queuePosition st + Z.of_nat (length terminated)
   <= Z.of_nat (length (msgQueue st)))%Z ->
  queue_stray (snd (handleSIGCHLD terminated st)) = queue_stray st.
Proof.
  revert st. induction terminated as [|[p s] more IH]; intros st H0 Hroom;
    [reflexivity|].
  rewrite handleSIGCHLD_cons. cbn [length] in Hroom.
  rewrite pushMessageQueue_room by (cbn; lia).
  rewrite IH; [reflexivity | cbn; lia | cbn; rewrite length_insert; lia].
Qed.

(** C6, as the code has it.  [reaped] are the children that a run of the
    handler has reaped so far, in a queue that has a free slot for each of
    them; [rest] are the terminated children still to come.  The run has
    then reached, with [rest] left to reap, a state in which: the child
    reaped [k]-th has the [k]-th next slot of the queue, with the line
    [background pid P is done: exit value N] or
    [background pid P is done: terminated by signal N], each ended by a
    newline; the first slot of the job table that held P is empty, and slots
    that held no reaped process id are as they were; no store has left the
    queue.  With nothing left ([rest] empty) every terminated child has been
    reaped. *)
Theorem C6_handleSIGCHLD (reaped rest : list (positive * wstatus)) (st : shell) :
  length (msgQueue st) = QUEUE_SLOTS ->
  (0 <= queuePosition st)%Z ->
  (queuePosition st + Z.of_nat (length reaped) <= Z.of_nat QUEUE_SLOTS)%Z ->
  handleSIGCHLD (reaped ++ rest) st
  = handleSIGCHLD rest (snd (handleSIGCHLD reaped st))
  /\ fst (handleSIGCHLD reaped st) = []
  /\ (forall k p s,
        reaped !! k = Some (p, s) ->
        msgQueue (snd (handleSIGCHLD reaped st))
          !! (Z.to_nat (queuePosition st) + k)%nat
        = Some (Some
            match s with
            | Exited n =>
                line_of ("background pid " +:+ decimal (Z.pos p)
                           +:+ " is done: exit value " +:+ decimal n)
            | Signaled n =>
                line_of ("background pid " +:+ decimal (Z.pos p)
                           +:+ " is done: terminated by signal " +:+ decimal n)
            end))
  /\ (forall i p s,
        (p, s) ∈ reaped ->
        children st !! i = Some (Z.pos p) ->
        (forall j, (j < i)%nat -> children st !! j <> Some (Z.pos p)) ->
        children (snd (handleSIGCHLD reaped st)) !! i = Some 0%Z)
  /\ (forall i c,
        children st !! i = Some c ->
        (forall p s, (p, s) ∈ reaped -> c <> Z.pos p) ->
        children (snd (handleSIGCHLD reaped st)) !! i = Some c)
  /\ queuePosition (snd (handleSIGCHLD reaped st))
     = (queuePosition st + Z.of_nat (length reaped))%Z
  /\ queue_stray (snd (handleSIGCHLD reaped st)) = queue_stray st.
Proof.
  intros Hlen H0 Hroom.
  split; [apply handleSIGCHLD_app|].
  split; [apply handleSIGCHLD_drains|]. split.
  { intros k p s Hk. rewrite <- done_message_text.
    apply handleSIGCHLD_queued; [exact H0 | rewrite Hlen; exact Hroom | exact Hk]. }
  split; [apply handleSIGCHLD_untracks|].
  split; [apply handleSIGCHLD_keeps|].
  split; [apply handleSIGCHLD_position|].
  apply handleSIGCHLD_in_bounds; [exact H0 | rewrite Hlen; exact Hroom].
Qed.

Lemma C6_handleSIGCHLD_witness :
  let st := set_children (track_child 7 (track_child 5 (children initial_shell)))
              initial_shell in
  let st' := snd (handleSIGCHLD [(7%positive, Signaled 15); (5%positive, Exited 0)] st) in
  msgQueue st' !! 0%nat
  = Some (Some (line_of "background pid 7 is done: terminated by signal 15"))
  /\ msgQueue st' !! 1%nat
     = Some (Some (line_of "background pid 5 is done: exit value 0"))
  /\ children st' !! 0%nat = Some 0%Z
  /\ children st' !! 1%nat = Some 0%Z
  /\ queue_stray st' = [].
Proof.
  intros st st'.
  destruct (C6_handleSIGCHLD [(7%positive, Signaled 15); (5%positive, Exited 0)] [] st)
    as (_ & _ & Hq & Hc & _ & _ & Hs);
    [reflexivity | cbn; lia | unfold QUEUE_SLOTS; cbn; lia |].
  split; [|split; [|split; [|split]]].
  - apply (Hq 0%nat 7%positive (Signaled 15)). reflexivity.
  - apply (Hq 1%nat 5%positive (Exited 0)). reflexivity.
  - apply (Hc 0%nat 5%positive (Exited 0)); [right; left | reflexivity | intros j Hj; lia].
  - apply (Hc 1%nat 7%positive (Signaled 15)); [left | reflexivity |].
    intros [|j] Hj; [discriminate | lia].
  - exact Hs.
Defined.

(** C6 as the specification states it fails on the text of the message:
    from the empty queue, what is queued for child 5 is the line with its
    newline, and no slot holds the text without it. *)
Lemma C6_counterexample :
  msgQueue (snd (handleSIGCHLD [(5%positive, Exited 0)] initial_shell)) !! 0%nat
  = Some (Some (line_of "background pid 5 is done: exit value 0"))
  /\ holds "background pid 5 is done: exit value 0"
       (msgQueue (snd (handleSIGCHLD [(5%positive, Exited 0)] initial_shell)))
     = false.
Proof. vm_compute. split; reflexivity. Qed.

(** C2, at the input on which the code departs from it.  From the empty
    queue, one run of the handler for 51 exited children fills the 50 slots
    with the first 50 messages and stores the 51st at index 50, outside
    [msgQueue]; no message is discarded and [queuePosition] becomes 51. *)
Theorem C2_queue_overrun :
  let st := snd (handleSIGCHLD (exited_children 51) initial_shell) in
  length (msgQueue st) = 50%nat
  /\ msgQueue st
     = map (fun k => Some (done_message (Z.of_nat (S k)) (Exited 0))) (seq 0 50)
  /\ queue_stray st = [(50%Z, line_of "background pid 51 is done: exit value 0")]
  /\ queuePosition st = 51%Z.
Proof. vm_compute. repeat split; reflexivity. Qed.

(** ** The loops over the two arrays *)

Lemma shell_eta (st : shell) :
  st = Shell (msgQueue st) (queuePosition st) (children st) (fgMode st) (stat st)
             (queue_stray st) (trace st).
Proof. now destruct st. Qed.

Lemma blanked_next {A : Type} (z x : A) (n : nat) (l : list A) :
  l !! n = Some x ->
  <[n := z]> (replicate n z ++ drop n l) = replicate (S n) z ++ drop (S n) l
  /\ (replicate n z ++ drop n l) !! n = Some x.
Proof.
  intros Hx. rewrite (drop_S _ _ _ Hx). split.
  - rewrite insert_app_r_alt by (rewrite length_replicate; lia).
    rewrite length_replicate, Nat.sub_diag, replicate_S_end, <- app_assoc.
    reflexivity.
  - rewrite lookup_app_r by (rewrite length_replicate; lia).
    now rewrite length_replicate, Nat.sub_diag.
Qed.

(** The state after the first [n] turns of the loop of [clearMessageQueue]. *)
Lemma clear_slots_prefix (st : shell) (n : nat) :
  (n <= length (msgQueue st))%nat ->
  foldl clear_slot st (seq 0 n)
  = Shell (replicate n None ++ drop n (msgQueue st)) (queuePosition st)
          (children st) (fgMode st) (stat st) (queue_stray st)
          (trace st ++ map print_message (omap id (take n (msgQueue st)))).
Proof.
  induction n as [|n IH]; intros Hn.
  - cbn. rewrite app_nil_r. apply shell_eta.
  - rewrite seq_S, foldl_snoc, IH by lia. cbn [Nat.add].
    destruct (lookup_lt_is_Some_2 (msgQueue st) n) as [x Hx]; [lia|].
    destruct (blanked_next None x n _ Hx) as [Hins Hlook].
    rewrite (take_S_r _ _ _ Hx), omap_app, map_app, app_assoc.
    unfold clear_slot. cbn [msgQueue]. rewrite Hlook.
    destruct x as [m|].
    + unfold set_msgQueue, log. cbn. now rewrite Hins.
    + cbn. rewrite app_nil_r.
      change (None :: replicate n None ++ drop (S n) (msgQueue st))
        with (replicate (S n) None ++ drop (S n) (msgQueue st)).
      rewrite <- Hins, list_insert_id by exact Hlook. reflexivity.
Qed.

(** The state after the first [n] turns of the loop of [exitShell]. *)
Lemma kill_slots_prefix (st : shell) (n : nat) :
  (n <= length (children st))%nat ->
  foldl kill_slot st (seq 0 n)
  = Shell (msgQueue st) (queuePosition st)
          (replicate n 0%Z ++ drop n (children st)) (fgMode st) (stat st)
          (queue_stray st)
          (trace st ++ map terminate (filter (fun c => c <> 0%Z) (take n (children st)))).
Proof.
  induction n as [|n IH]; intros Hn.
  - cbn. rewrite app_nil_r. apply shell_eta.
  - rewrite seq_S, foldl_snoc, IH by lia. cbn [Nat.add].
    destruct (lookup_lt_is_Some_2 (children st) n) as [x Hx]; [lia|].
    destruct (blanked_next 0%Z x n _ Hx) as [Hins Hlook].
    rewrite (take_S_r _ _ _ Hx), filter_app, map_app, app_assoc.
    unfold kill_slot. cbn [children]. rewrite Hlook.
    destruct (Z.eqb_spec x 0) as [->|Hx0].
    + rewrite filter_cons_False by (intros H; now apply H).
      cbn. rewrite app_nil_r.
      change (0%Z :: replicate n 0%Z ++ drop (S n) (children st))
        with (replicate (S n) 0%Z ++ drop (S n) (children st)).
      rewrite <- Hins, list_insert_id by exact Hlook. reflexivity.
    + rewrite filter_cons_True by exact Hx0.
      unfold set_children, log. cbn. now rewrite Hins.
Qed.

Lemma clearMessageQueue_sized (st : shell) :
  length (msgQueue st) = QUEUE_SLOTS ->
  clearMessageQueue st
  = Shell (replicate QUEUE_SLOTS None) 0 (children st) (fgMode st) (stat st)
          (queue_stray st) (trace st ++ map print_message (queued st)).
Proof.
  intros Hq. unfold clearMessageQueue, queued.
  rewrite clear_slots_prefix by lia.
  rewrite <- Hq at 1 2. rewrite drop_all, take_ge, app_nil_r by lia.
  now rewrite Hq.
Qed.

Lemma omap_replicate_None {A : Type} (n : nat) :
  omap id (replicate n (@None A)) = [].
Proof. induction n as [|n IH]; [reflexivity | exact IH]. Qed.

Lemma filter_replicate_zero (n : nat) :
  filter (fun c => c <> 0%Z) (replicate n 0%Z) = [].
Proof.
  induction n as [|n IH]; [reflexivity|].
  cbn [replicate]. rewrite filter_cons_False by (intros H; now apply H). exact IH.
Qed.

Lemma exitShell_sized (st : shell) :
  well_sized st ->
  exitShell st
  = Shell (replicate QUEUE_SLOTS None) 0 (replicate CHILD_SLOTS 0%Z) (fgMode st)
          (stat st) (queue_stray st)
          (trace st ++ map print_message (queued st)
             ++ map terminate (tracked st) ++ [EExit 3]).
Proof.
  intros [Hq Hc]. unfold exitShell, tracked.
  rewrite clearMessageQueue_sized by exact Hq.
  rewrite kill_slots_prefix by (cbn; lia). cbn [children msgQueue trace log].
  rewrite <- Hc at 1 2. rewrite drop_all, take_ge, app_nil_r by lia.
  unfold log. cbn. rewrite Hc. now rewrite <- !app_assoc.
Qed.

(** The loop of [clearMessageQueue] only writes. *)
Lemma clear_slots_writes (idxs : list nat) (st : shell) :
  exists ws, trace (foldl clear_slot st idxs) = trace st ++ map EWrite ws.
Proof.
  revert st. induction idxs as [|i idxs IH]; intros st.
  - exists []. cbn. now rewrite app_nil_r.
  - cbn [foldl]. destruct (IH (clear_slot st i)) as [ws ->].
    unfold clear_slot. destruct (msgQueue st !! i) as [[m|]|].
    + exists ((m +:+ String NUL EmptyString) :: ws). cbn. now rewrite <- app_assoc.
    + now exists ws.
    + now exists ws.
Qed.

Lemma clear_slots_fgMode (idxs : list nat) (st : shell) :
  fgMode (foldl clear_slot st idxs) = fgMode st.
Proof.
  revert st. induction idxs as [|i idxs IH]; intros st; [reflexivity|].
  cbn [foldl]. rewrite IH. unfold clear_slot.
  now destruct (msgQueue st !! i) as [[m|]|].
Qed.

Lemma set_queuePosition_other (n : Z) (st : shell) :
  fgMode (set_queuePosition n st) = fgMode st
  /\ trace (set_queuePosition n st) = trace st.
Proof. now split. Qed.

Lemma clearMessageQueue_other (st : shell) :
  fgMode (clearMessageQueue st) = fgMode st
  /\ exists ws, trace (clearMessageQueue st) = trace st ++ map EWrite ws.
Proof.
  unfold clearMessageQueue.
  rewrite (proj1 (set_queuePosition_other _ _)), (proj2 (set_queuePosition_other _ _)).
  split; [apply clear_slots_fgMode | apply clear_slots_writes].
Qed.

Lemma writes_no_fork (ws : list string) :
  existsb is_fork (map EWrite ws) = false.
Proof. induction ws as [|w ws IH]; [reflexivity | exact IH]. Qed.

(** ** One turn of the loop *)

Lemma log_other (e : event) (st : shell) :
  fgMode (log e st) = fgMode st /\ trace (log e st) = trace st ++ [e].
Proof. now split. Qed.

Lemma blank_no_tokens (line : string) :
  blank line = true -> strtok_seq EmptyString line = [].
Proof.
  induction line as [|c rest IH]; [reflexivity|].
  cbn [blank strtok_seq]. intros H. apply andb_true_iff in H as [Hc Hr].
  rewrite Hc. now apply IH.
Qed.

Lemma skipped_no_descriptor (mode : bool) (pid : Z) (line : string) :
  first_byte line = "#"%char \/ line = EmptyString
  \/ first_byte line = newline \/ blank line = true ->
  descriptor mode pid line = None.
Proof.
  unfold descriptor, accepted. intros [H|[H|[H|H]]].
  - rewrite H. cbn [isValidLine Ascii.eqb]. now rewrite andb_false_r.
  - now subst line.
  - rewrite H. unfold isValidLine.
    replace (Ascii.eqb newline newline) with true by reflexivity.
    destruct (Ascii.eqb newline "#"); now rewrite andb_false_r.
  - unfold processInput. rewrite blank_no_tokens by exact H.
    now destruct (_ && _ && _).
Qed.

Lemma main_turn_skip (pid : Z) (os : answers) (line : string) (st : shell) :
  (forall mode, descriptor mode pid line = None) ->
  main_turn pid os line st = (log (EWrite ": ") (clearMessageQueue st), Reprompt).
Proof. intros H. unfold main_turn. now rewrite H. Qed.

Lemma skipped_lines (pid : Z) (os : answers) (line : string) (st : shell) :
  first_byte line = "#"%char \/ line = EmptyString
  \/ first_byte line = newline \/ blank line = true ->
  (forall mode, descriptor mode pid line = None)
  /\ main_turn pid os line st = (log (EWrite ": ") (clearMessageQueue st), Reprompt)
  /\ spawned st (fst (main_turn pid os line st)) = false.
Proof.
  intros H.
  assert (Hd : forall mode, descriptor mode pid line = None)
    by (intros mode; now apply skipped_no_descriptor).
  split; [exact Hd|]. rewrite main_turn_skip by exact Hd.
  split; [reflexivity|].
  unfold spawned. cbn [fst]. rewrite (proj2 (log_other _ _)).
  destruct (clearMessageQueue_other st) as [_ [ws ->]].
  rewrite <- app_assoc, drop_app_length.
  change (map EWrite ws ++ [EWrite ": "]) with (map EWrite ws ++ map EWrite [": "]).
  rewrite <- map_app. apply writes_no_fork.
Qed.

(** C3, as the code has it.  A line whose first byte is [#], the empty
    line, a line that begins with a newline, and a line of spaces and
    newlines only produce no descriptor and spawn no child: the turn drains
    the queue, prompts, and the loop goes round.  (The test is on the first
    byte of the line; a [#] that follows spaces is a token like any other.) *)
Theorem C3_skipped_lines (pid : Z) (os : answers) (line : string) (st : shell) :
  first_byte line = "#"%char \/ line = EmptyString
  \/ first_byte line = newline \/ blank line = true ->
  (forall mode, descriptor mode pid line = None)
  /\ main_turn pid os line st = (log (EWrite ": ") (clearMessageQueue st), Reprompt)
  /\ spawned st (fst (main_turn pid os line st)) = false.
Proof. apply skipped_lines. Qed.

Lemma C3_skipped_lines_witness :
  descriptor false 1234 (line_of "# a comment") = None
  /\ snd (main_turn 1234 (Answers 9 (Exited 0) true) (line_of "# a comment")
            initial_shell) = Reprompt
  /\ spawned initial_shell
       (fst (main_turn 1234 (Answers 9 (Exited 0) true) (line_of "# a comment")
               initial_shell)) = false.
Proof.
  destruct (C3_skipped_lines 1234 (Answers 9 (Exited 0) true)
              (line_of "# a comment") initial_shell) as (Hd & Ht & Hs).
  - left. reflexivity.
  - split; [apply Hd|]. split; [now rewrite Ht | exact Hs].
Defined.

(** C3 as the specification states it fails: the first byte of the line
    [ # hi] that is not white space is [#], yet the turn builds a descriptor
    (with program [#]) and forks. *)
Lemma C3_counterexample :
  first_nonblank (line_of " # hi") = "#"%char
  /\ option_map (fun c => arg_at c 0) (descriptor false 1234 (line_of " # hi"))
     = Some (Some "#")
  /\ spawned initial_shell
       (fst (main_turn 1234 (Answers 9 (Exited 0) true) (line_of " # hi")
               initial_shell)) = true.
Proof. vm_compute. repeat split; reflexivity. Qed.

(** ** Shutdown *)

Lemma main_turn_exit (pid : Z) (os : answers) (line : string) (st : shell)
  (cmd : command) :
  descriptor (fgMode st) pid line = Some cmd ->
  arg_at cmd 0 = Some "exit" ->
  main_turn pid os line st
  = (exitShell (log (EWrite ": ") (clearMessageQueue st)), Terminated 3).
Proof.
  intros Hd Ha. unfold main_turn.
  rewrite (proj1 (log_other _ _)), (proj1 (clearMessageQueue_other st)), Hd, Ha.
  reflexivity.
Qed.

Lemma shutdown_trace (st : shell) :
  well_sized st ->
  trace (exitShell st)
  = trace st ++ map print_message (queued st) ++ map terminate (tracked st)
      ++ [EExit 3]
  /\ queued (exitShell st) = []
  /\ tracked (exitShell st) = []
  /\ (forall p, EWaitpid p ∉ map print_message (queued st)
                  ++ map terminate (tracked st) ++ [EExit 3]).
Proof.
  intros Hw. rewrite exitShell_sized by exact Hw.
  split; [reflexivity|]. split; [apply omap_replicate_None|].
  split; [apply filter_replicate_zero|].
  intros p Hin.
  apply elem_of_app in Hin as [Hin|Hin].
  { apply list_elem_of_fmap in Hin as (m & Hm & _). discriminate Hm. }
  apply elem_of_app in Hin as [Hin|Hin].
  { apply list_elem_of_fmap in Hin as (c & Hc & _). discriminate Hc. }
  apply list_elem_of_singleton in Hin. discriminate Hin.
Qed.

(** C9.  Shutdown first writes the queued messages, in slot order, and
    leaves the queue empty; then sends SIGTERM to every process id in the
    job table, in slot order, and waits for none of them; then ends the
    process with code 3.  The [exit] built-in of the loop does exactly this. *)
Theorem C9_exitShell (st : shell) :
  well_sized st ->
  trace (exitShell st)
  = trace st ++ map print_message (queued st) ++ map terminate (tracked st)
      ++ [EExit 3]
  /\ queued (exitShell st) = []
  /\ tracked (exitShell st) = []
  /\ (forall p, EWaitpid p ∉ map print_message (queued st)
                  ++ map terminate (tracked st) ++ [EExit 3])
  /\ (forall pid os line cmd,
        descriptor (fgMode st) pid line = Some cmd ->
        arg_at cmd 0 = Some "exit" ->
        main_turn pid os line st
        = (exitShell (log (EWrite ": ") (clearMessageQueue st)), Terminated 3)).
Proof.
  intros Hw. destruct (shutdown_trace st Hw) as (H1 & H2 & H3 & H4).
  repeat (split; [assumption|]).
  intros pid os line cmd. apply main_turn_exit.
Qed.

Lemma C9_exitShell_witness :
  let st := set_children (track_child 7 (track_child 4 (children initial_shell)))
              (pushMessageQueue "m1" (pushMessageQueue "m0" initial_shell)) in
  well_sized st
  /\ trace (exitShell st)
     = [print_message "m0"; print_message "m1";
        EKill 4 SIGTERM; EKill 7 SIGTERM; EExit 3]
  /\ snd (main_turn 1234 (Answers 9 (Exited 0) true) (line_of "exit") st)
     = Terminated 3.
Proof.
  intros st.
  assert (Hw : well_sized st) by (split; reflexivity).
  destruct (C9_exitShell st Hw) as (Ht & _ & _ & _ & Hm).
  split; [exact Hw|]. split.
  - rewrite Ht. reflexivity.
  - erewrite Hm; reflexivity.
Defined.

(** * Further properties *)

(** ** Tokens and the lines that give a descriptor *)

Lemma append_not_empty (s : string) (c : ascii) : s +:+ String c EmptyString <> EmptyString.
Proof. destruct s; discriminate. Qed.

Lemma delim_free_snoc (s : string) (c : ascii) :
  delim_free s = true -> is_delim c = false ->
  delim_free (s +:+ String c EmptyString) = true.
Proof.
  intros Hs Hc. induction s as [|x s IH]; simpl in *.
  - now rewrite Hc.
  - apply andb_true_iff in Hs as [Hx Hs]. now rewrite Hx, IH.
Qed.

Lemma strtok_seq_tokens (line cur : string) :
  delim_free cur = true ->
  Forall (fun t => t <> EmptyString /\ delim_free t = true) (strtok_seq cur line).
Proof.
  revert cur. induction line as [|c rest IH]; intros cur Hcur.
  - destruct cur; constructor; [split; [discriminate | exact Hcur] | constructor].
  - cbn [strtok_seq]. destruct (is_delim c) eqn:Hc.
    + destruct cur as [|x cur].
      * now apply IH.
      * constructor; [split; [discriminate | exact Hcur] | now apply IH].
    + apply IH. now apply delim_free_snoc.
Qed.

Lemma strtok_seq_none (line cur : string) :
  strtok_seq cur line = [] <-> cur = EmptyString /\ blank line = true.
Proof.
  revert cur. induction line as [|c rest IH]; intros cur.
  - destruct cur; simpl; split; try tauto; try discriminate.
    intros [H _]. discriminate H.
  - cbn [strtok_seq blank]. destruct (is_delim c) eqn:Hc.
    + destruct cur as [|x cur].
      * rewrite IH. cbn. tauto.
      * split; [discriminate | intros [H _]; discriminate H].
    + rewrite IH. split.
      * intros [H _]. now apply append_not_empty in H.
      * intros [_ H]. discriminate H.
Qed.

Lemma processInput_none (mode : bool) (pid : Z) (line : string) :
  processInput mode pid line = None <-> blank line = true.
Proof.
  unfold processInput, processInput_tokens, build.
  destruct (strtok_seq EmptyString line) as [|t toks] eqn:E.
  - split; [|reflexivity]. intros _. now apply strtok_seq_none in E.
  - split; [discriminate|]. intros H.
    assert (E' : strtok_seq EmptyString line = []) by now apply strtok_seq_none.
    congruence.
Qed.

Lemma isValidLine_false (c : ascii) :
  isValidLine c = false <-> c = "#"%char \/ c = newline.
Proof.
  unfold isValidLine.
  destruct (Ascii.eqb_spec c "#") as [->|H1]; [tauto|].
  destruct (Ascii.eqb_spec c newline) as [->|H2]; [tauto|].
  split; [discriminate | tauto].
Qed.

Lemma no_descriptor_iff (mode : bool) (pid : Z) (line : string) :
  descriptor mode pid line = None
  <-> line = EmptyString
      \/ (LINELENGTH <= Z.of_nat (String.length line))%Z
      \/ first_byte line = "#"%char
      \/ first_byte line = newline
      \/ blank line = true.
Proof.
  unfold descriptor, accepted.
  destruct (Z.eqb_spec (Z.of_nat (String.length line)) 0) as [H0|H0].
  { cbn. split; [|reflexivity]. intros _. left.
    destruct line; [reflexivity | cbn in H0; lia]. }
  destruct (Z.ltb_spec (Z.of_nat (String.length line)) LINELENGTH) as [Hl|Hl];
    [|cbn; split; [intros _; tauto | reflexivity]].
  cbn [negb andb].
  destruct (isValidLine (first_byte line)) eqn:Hv.
  - rewrite processInput_none. split; [tauto|].
    intros [->|[H|[H|[H|H]]]]; [reflexivity | lia | | | exact H].
    + assert (Hf : isValidLine (first_byte line) = false)
        by (apply isValidLine_false; tauto). congruence.
    + assert (Hf : isValidLine (first_byte line) = false)
        by (apply isValidLine_false; tauto). congruence.
  - apply isValidLine_false in Hv. split; [intros _; tauto | reflexivity].
Qed.

(** X1.  [line] is a line as [getline] delivers it: not empty, and with
    no NUL byte inside, so that its length is [read] and the tokenizer sees
    all of it.  A turn of the loop builds no descriptor for it exactly when it
    has 2048 bytes or more, or its first byte is [#] or a newline, or it is
    made of spaces and newlines only. *)
Theorem X1_no_descriptor_iff (mode : bool) (pid : Z) (line : string) :
  line <> EmptyString ->
  free_of NUL line = true ->
  descriptor mode pid line = None
  <-> (LINELENGTH <= Z.of_nat (String.length line))%Z
      \/ first_byte line = "#"%char
      \/ first_byte line = newline
      \/ blank line = true.
Proof.
  intros Hne _. rewrite no_descriptor_iff. tauto.
Qed.

Lemma X1_no_descriptor_iff_witness :
  descriptor false 1234 (line_of "   ") = None
  /\ descriptor false 1234 (line_of "ls") <> None.
Proof.
  split.
  - apply (X1_no_descriptor_iff false 1234 (line_of "   "));
      [discriminate | reflexivity | repeat right; reflexivity].
  - intros H.
    apply (X1_no_descriptor_iff false 1234 (line_of "ls")) in H;
      [|discriminate | reflexivity].
    destruct H as [H|[H|[H|H]]]; [cbn in H; unfold LINELENGTH in H; lia | | |];
      discriminate H.
Defined.

(** ** The program of a descriptor *)

Lemma decimal_not_empty (n : Z) : decimal n <> EmptyString.
Proof.
  unfold decimal. destruct n as [|p|p]; cbn.
  - discriminate.
  - pose proof (DecimalPos.Unsigned.to_uint_nonnil p) as H.
    destruct (Pos.to_uint p); [contradiction | discriminate..].
  - discriminate.
Qed.

Lemma stringReplace_not_empty (pid : Z) (w : string) :
  w <> EmptyString -> stringReplace pid w <> EmptyString.
Proof.
  destruct w as [|c [|c' r]]; intros H.
  - contradiction.
  - now rewrite stringReplace_last.
  - destruct (Ascii.eqb c replaceToken && Ascii.eqb c' replaceToken) eqn:E.
    + apply both_tokens in E as [-> ->]. rewrite stringReplace_marker.
      pose proof (decimal_not_empty pid) as Hd.
      destruct (decimal pid); [contradiction | discriminate].
    + now rewrite stringReplace_byte.
Qed.

Lemma store_arg_program (i : Z) (v : string) (b : builder) :
  i <> 0%Z -> arg_at (newCmd (store_arg i v b)) 0 = arg_at (newCmd b) 0.
Proof.
  intros Hi. unfold store_arg, arg_at.
  destruct ((0 <=? i)%Z && (i <? Z.of_nat (length (args (newCmd b))))%Z) eqn:E;
    [|reflexivity].
  apply andb_true_iff in E as [E _]. apply Z.leb_le in E.
  cbn. rewrite list_lookup_insert_ne by lia. reflexivity.
Qed.

Lemma store_next_program (v : string) (b : builder) :
  builder_inv b -> arg_at (newCmd (store_next v b)) 0 = arg_at (newCmd b) 0.
Proof.
  intros (_ & _ & Hn & _). unfold store_next.
  destruct (argPosition b <=? ARGLENGTH)%Z; [|reflexivity].
  unfold set_argPosition. cbn [newCmd]. apply store_arg_program. lia.
Qed.

Lemma consume_program (pid : Z) (toks : list string) (b : builder) :
  builder_inv b ->
  arg_at (newCmd (consume pid toks b)) 0 = arg_at (newCmd b) 0.
Proof.
  revert b.
  induction toks as [| t | t u r IHr IHu] using list_pair_ind; intros b Hb.
  - reflexivity.
  - pose proof (proj1 Hb) as Hs.
    destruct (token_cases t) as [->|[->|[->|(H1 & H2 & H3)]]].
    + now rewrite consume_lone_operator.
    + now rewrite consume_lone_operator.
    + now rewrite consume_amp.
    + rewrite consume_plain, consume_nil by assumption.
      now rewrite store_next_program.
  - pose proof (proj1 Hb) as Hs.
    destruct (token_cases t) as [->|[->|[->|(H1 & H2 & H3)]]].
    + rewrite consume_input by exact Hs. now rewrite IHr.
    + rewrite consume_output by exact Hs. now rewrite IHr.
    + rewrite consume_amp by exact Hs. now rewrite IHu.
    + rewrite consume_plain by assumption.
      rewrite IHu by now apply store_next_inv.
      now rewrite store_next_program.
Qed.

Lemma program_of_tokens (mode : bool) (pid : Z) (prog : string) (rest : list string) :
  exists cmd,
    processInput_tokens mode pid (prog :: rest) = Some cmd
    /\ arg_at cmd 0 = Some (stringReplace pid prog).
Proof.
  unfold processInput_tokens. rewrite build_cons. cbn [option_map].
  eexists. split; [reflexivity|].
  unfold arg_at. rewrite (proj2 (finish_stray _ _)).
  change (arg_at (newCmd (consume pid rest
            (store_arg 0 (stringReplace pid prog)
               (set_isBackground false fresh_builder)))) 0
          = Some (stringReplace pid prog)).
  rewrite consume_program by apply first_token_inv.
  unfold store_arg, arg_at. cbn. reflexivity.
Qed.

(** X2.  A descriptor always has a program: its [args[0]] is the expansion
    of the first token of the line, and it is not the empty string. *)
Theorem X2_program_not_empty (mode : bool) (pid : Z) (line : string) (cmd : command) :
  processInput mode pid line = Some cmd ->
  exists first rest,
    strtok_seq EmptyString line = first :: rest
    /\ arg_at cmd 0 = Some (stringReplace pid first)
    /\ stringReplace pid first <> EmptyString.
Proof.
  unfold processInput. intros H.
  pose proof (strtok_seq_tokens line EmptyString eq_refl) as Htok.
  destruct (strtok_seq EmptyString line) as [|first rest]; [discriminate H|].
  exists first, rest. split; [reflexivity|].
  destruct (program_of_tokens mode pid first rest) as (cmd' & Hc & Hp).
  rewrite H in Hc. injection Hc as <-. split; [exact Hp|].
  apply stringReplace_not_empty.
  apply Forall_cons in Htok as [[Hne _] _]. exact Hne.
Qed.

Lemma X2_program_not_empty_witness :
  exists cmd, processInput false 1234 (line_of "  echo$$ hi") = Some cmd
              /\ arg_at cmd 0 = Some "echo1234".
Proof.
  eexists. split; [reflexivity|].
  destruct (X2_program_not_empty false 1234 (line_of "  echo$$ hi") _ eq_refl)
    as (first & rest & E & Hp & _).
  injection E as <- _. exact Hp.
Defined.

(** ** The arguments of a plain command *)

Lemma plain_cases (t : string) :
  plain t = true ->
  String.eqb t "<" = false /\ String.eqb t ">" = false /\ String.eqb t "&" = false.
Proof.
  unfold plain. intros H.
  apply andb_true_iff in H as [H H3]. apply andb_true_iff in H as [H1 H2].
  now rewrite !negb_true_iff in *.
Qed.

Lemma store_next_in_bounds (v : string) (b : builder) :
  builder_inv b -> (argPosition b < ARGLENGTH)%Z ->
  newCmd (store_next v b)
  = Command (<[Z.to_nat (argPosition b) := Some v]> (args (newCmd b)))
      (inputFile (newCmd b)) (outputFile (newCmd b)) (isBackground (newCmd b))
  /\ argPosition (store_next v b) = (argPosition b + 1)%Z.
Proof.
  intros (_ & Hl & Hn & _) Hlt. unfold store_next, store_arg.
  rewrite Hl, Z2Nat.id by (unfold ARGLENGTH; lia).
  replace (argPosition b <=? ARGLENGTH)%Z with true by (symmetry; apply Z.leb_le; lia).
  replace (0 <=? argPosition b)%Z with true by (symmetry; apply Z.leb_le; lia).
  replace (argPosition b <? ARGLENGTH)%Z with true by (symmetry; apply Z.ltb_lt; lia).
  now split.
Qed.

Lemma consume_plain_tokens (pid : Z) (rest : list string) (b : builder) :
  Forall (fun t => plain t = true) rest ->
  builder_inv b ->
  (argPosition b + Z.of_nat (length rest) <= ARGLENGTH)%Z ->
  newCmd (consume pid rest b)
  = Command (take (Z.to_nat (argPosition b)) (args (newCmd b))
               ++ map (fun t => Some (stringReplace pid t)) rest
               ++ drop (Z.to_nat (argPosition b) + length rest) (args (newCmd b)))
      (inputFile (newCmd b)) (outputFile (newCmd b))
      (match rest with [] => isBackground (newCmd b) | _ => false end).
Proof.
  intros Hplain. revert b.
  induction Hplain as [|t rest Ht Hrest IH]; intros b Hb Hroom.
  - rewrite consume_nil. cbn [map length app]. rewrite Nat.add_0_r, take_drop.
    now destruct b as [[a i o g] n s].
  - destruct (plain_cases t Ht) as (H1 & H2 & H3).
    rewrite consume_plain by (try assumption; apply Hb).
    cbn [length] in Hroom.
    assert (Hb' : builder_inv (set_isBackground false b)) by exact Hb.
    destruct (store_next_in_bounds (stringReplace pid t) _ Hb') as [Hc Hp];
      [cbn; lia|].
    cbn [set_isBackground argPosition newCmd args inputFile outputFile isBackground]
      in Hc, Hp.
    rewrite IH; [| now apply store_next_inv | rewrite Hp; lia].
    rewrite Hp, Hc. cbn [args inputFile outputFile isBackground].
    destruct Hb as (_ & Hl & Hn & _).
    set (k := Z.to_nat (argPosition b)).
    assert (Hk : (k < length (args (newCmd b)))%nat)
      by (rewrite Hl; unfold ARGLENGTH in *; lia).
    replace (Z.to_nat (argPosition b + 1)) with (S k) by lia.
    rewrite (take_S_r _ k (Some (stringReplace pid t)))
      by now apply list_lookup_insert_eq.
    rewrite take_insert_ge by lia. rewrite drop_insert_lt by lia.
    cbn [map length]. rewrite <- app_assoc. cbn [app].
    replace (S k + length rest)%nat with (k + S (length rest))%nat by lia.
    now destruct rest.
Qed.

Lemma finish_foreground (mode : bool) (b : builder) :
  isBackground (newCmd b) = false -> newCmd (finish mode b) = newCmd b.
Proof. destruct mode, b as [[a i o [|]] n s]; cbn; intros H; now try discriminate H. Qed.

Lemma plain_command (mode : bool) (pid : Z) (prog : string) (rest : list string) :
  Forall (fun t => plain t = true) rest ->
  (length rest <= 512)%nat ->
  processInput_tokens mode pid (prog :: rest)
  = Some (Command
            (Some (stringReplace pid prog)
               :: map (fun t => Some (stringReplace pid t)) rest
               ++ replicate (512 - length rest) None)
            None None false).
Proof.
  intros Hplain Hlen. unfold processInput_tokens. rewrite build_cons.
  cbn [option_map]. f_equal.
  pose proof (first_token_inv pid prog) as Hinv.
  set (b0 := store_arg 0 (stringReplace pid prog)
               (set_isBackground false fresh_builder)) in *.
  assert (Hb0 : newCmd b0
                = Command (Some (stringReplace pid prog) :: replicate 512 None)
                    None None false) by reflexivity.
  assert (Hp0 : argPosition b0 = 1%Z) by reflexivity.
  assert (Hc : newCmd (consume pid rest b0)
               = Command
                   (Some (stringReplace pid prog)
                      :: map (fun t => Some (stringReplace pid t)) rest
                      ++ replicate (512 - length rest) None)
                   None None false).
  { rewrite consume_plain_tokens;
      [| exact Hplain | exact Hinv | rewrite Hp0; unfold ARGLENGTH; lia].
    rewrite Hp0, Hb0. cbn [args inputFile outputFile isBackground].
    change (Z.to_nat 1) with 1%nat. cbn [take drop Nat.add app].
    rewrite drop_replicate. now destruct rest. }
  rewrite finish_foreground; [exact Hc | now rewrite Hc].
Qed.

(** X3.  For a line of a program and at most 512 further tokens, none of
    them [<], [>] or [&], the descriptor is: [args] holds the expansions of
    all the tokens in order, followed by [NULL]s up to its 513 slots; no
    redirection; foreground. *)
Theorem X3_plain_command (mode : bool) (pid : Z) (prog : string) (rest : list string) :
  Forall (fun t => plain t = true) rest ->
  (length rest <= 512)%nat ->
  processInput_tokens mode pid (prog :: rest)
  = Some (Command
            (Some (stringReplace pid prog)
               :: map (fun t => Some (stringReplace pid t)) rest
               ++ replicate (512 - length rest) None)
            None None false).
Proof. apply plain_command. Qed.

Lemma X3_plain_command_witness :
  processInput_tokens false 1234 ["ls"; "-l"; "/tmp/$$"]
  = Some (Command ([Some "ls"; Some "-l"; Some "/tmp/1234"] ++ replicate 510 None)
            None None false).
Proof.
  rewrite (X3_plain_command false 1234 "ls" ["-l"; "/tmp/$$"]).
  - reflexivity.
  - repeat constructor.
  - cbn. lia.
Defined.

(** ** How the loop composes *)

Lemma settled_single (t : string) : settled [t] = negb (is_redirect t).
Proof. unfold settled. cbn. now destruct (is_redirect t). Qed.

Lemma settled_operand (t u : string) (r : list string) :
  is_redirect t = true -> settled (t :: u :: r) = settled r.
Proof.
  intros Ht. unfold settled. rewrite !reverse_cons.
  now apply leading_redirects_snoc_pair.
Qed.

Lemma settled_plain (t : string) (l : list string) :
  is_redirect t = false -> settled (t :: l) = settled l.
Proof.
  intros Ht. unfold settled. rewrite reverse_cons.
  now rewrite leading_redirects_snoc_plain.
Qed.

(** Tokens that leave no operator waiting can be consumed on their own. *)
Lemma consume_app (pid : Z) (l1 l2 : list string) (b : builder) :
  settled l1 = true -> started b ->
  consume pid (l1 ++ l2) b = consume pid l2 (consume pid l1 b).
Proof.
  revert b.
  induction l1 as [| t | t u r IHr IHu] using list_pair_ind; intros b Hset Hb.
  - reflexivity.
  - rewrite settled_single in Hset. cbn [app].
    destruct (token_cases t) as [->|[->|[->|(H1 & H2 & H3)]]]; try discriminate Hset.
    + now rewrite !consume_amp, consume_nil.
    + now rewrite !consume_plain, consume_nil.
  - change ((t :: u :: r) ++ l2) with (t :: u :: (r ++ l2)).
    change (t :: u :: (r ++ l2)) with (t :: (u :: r) ++ l2).
    destruct (token_cases t) as [->|[->|[->|(H1 & H2 & H3)]]].
    + rewrite settled_operand in Hset by reflexivity.
      cbn [app]. rewrite !consume_input by exact Hb. now apply IHr.
    + rewrite settled_operand in Hset by reflexivity.
      cbn [app]. rewrite !consume_output by exact Hb. now apply IHr.
    + rewrite settled_plain in Hset by reflexivity.
      rewrite !consume_amp by exact Hb. now apply IHu.
    + rewrite settled_plain in Hset by now apply is_redirect_no.
      rewrite !consume_plain by assumption.
      apply IHu; [exact Hset | now apply store_next_started].
Qed.

Lemma finish_cleared (mode : bool) (b : builder) :
  finish mode (set_isBackground false b) = finish true b.
Proof. destruct mode, b as [[a i o g] n s]; reflexivity. Qed.

Lemma lone_operator_ignored (mode : bool) (pid : Z) (prog op : string)
  (rest : list string) :
  settled rest = true -> is_redirect op = true ->
  processInput_tokens mode pid (prog :: rest ++ [op])
  = processInput_tokens true pid (prog :: rest).
Proof.
  intros Hset Hop. unfold processInput_tokens. rewrite !build_cons.
  cbn [option_map]. f_equal. f_equal.
  pose proof (first_token_inv pid prog) as Hinv.
  rewrite consume_app by (try exact Hset; apply Hinv).
  rewrite consume_lone_operator; [apply finish_cleared | | exact Hop].
  apply (consume_inv pid rest _ Hinv).
Qed.

(** X4.  A [<] or [>] that ends the line without an operand is ignored
    without error: when the tokens before it leave no operator waiting, the
    descriptor is the one of the line without that last token, built as a
    foreground command (being the last token, it also un-sets an [&]
    before it). *)
Theorem X4_lone_operator_ignored (mode : bool) (pid : Z) (prog op : string)
  (rest : list string) :
  settled rest = true -> is_redirect op = true ->
  processInput_tokens mode pid (prog :: rest ++ [op])
  = processInput_tokens true pid (prog :: rest).
Proof. apply lone_operator_ignored. Qed.

Lemma X4_lone_operator_ignored_witness :
  processInput_tokens false 1234 ["cat"; "f"; "<"]
  = processInput_tokens true 1234 ["cat"; "f"].
Proof.
  apply (X4_lone_operator_ignored false 1234 "cat" "<" ["f"]); reflexivity.
Defined.

Lemma last_redirection (pid : Z) (prog path : string) (rest : list string) :
  settled rest = true ->
  (explicit_input pid (prog :: rest ++ ["<"; path]) = Some (stringReplace pid path)
   /\ explicit_output pid (prog :: rest ++ ["<"; path])
      = explicit_output pid (prog :: rest))
  /\ (explicit_output pid (prog :: rest ++ [">"; path]) = Some (stringReplace pid path)
      /\ explicit_input pid (prog :: rest ++ [">"; path])
         = explicit_input pid (prog :: rest)).
Proof.
  intros Hset. unfold explicit_input, explicit_output.
  rewrite !consume_first by apply fresh_not_started.
  pose proof (first_token_inv pid prog) as Hinv.
  pose proof (proj1 (proj1 (consume_inv pid rest _ Hinv))) as Hs.
  rewrite !consume_app by (try exact Hset; apply Hinv).
  rewrite consume_input, consume_output by exact Hs.
  now rewrite !consume_nil.
Qed.

(** X5.  The last redirection wins: after tokens that leave no operator
    waiting, [< path] at the end of the line makes the explicit input path the
    expansion of [path], whatever input redirections came before, and leaves
    the output path alone; and the same for [> path] with the sides
    exchanged. *)
Theorem X5_last_redirection (pid : Z) (prog path : string) (rest : list string) :
  settled rest = true ->
  (explicit_input pid (prog :: rest ++ ["<"; path]) = Some (stringReplace pid path)
   /\ explicit_output pid (prog :: rest ++ ["<"; path])
      = explicit_output pid (prog :: rest))
  /\ (explicit_output pid (prog :: rest ++ [">"; path]) = Some (stringReplace pid path)
      /\ explicit_input pid (prog :: rest ++ [">"; path])
         = explicit_input pid (prog :: rest)).
Proof. apply last_redirection. Qed.

Lemma X5_last_redirection_witness :
  explicit_input 1234 ["cat"; "<"; "a"; ">"; "o"; "<"; "b$$"] = Some "b1234"
  /\ explicit_output 1234 ["cat"; "<"; "a"; ">"; "o"; "<"; "b$$"] = Some "o".
Proof.
  destruct (X5_last_redirection 1234 "cat" "b$$" ["<"; "a"; ">"; "o"] eq_refl)
    as [[Hi Ho] _].
  split; [exact Hi | etransitivity; [exact Ho | reflexivity]].
Defined.

(** ** Expansion and concatenation *)

Lemma last_byte_cons (c c' : ascii) (r : string) :
  last_byte (String c (String c' r)) = last_byte (String c' r).
Proof. reflexivity. Qed.

Lemma stringReplace_app_right (pid : Z) (a b : string) :
  first_byte b <> replaceToken ->
  stringReplace pid (a +:+ b) = stringReplace pid a +:+ stringReplace pid b.
Proof.
  intros Hb. induction a as [| c | c c' r IHr IHc] using string_pair_ind.
  - reflexivity.
  - rewrite stringReplace_last. cbn [String.append].
    destruct b as [|c' r]; [now rewrite stringReplace_last|].
    apply stringReplace_byte. cbn in Hb.
    apply Ascii.eqb_neq in Hb. rewrite Hb. apply andb_false_r.
  - change (String c (String c' r) +:+ b) with (String c (String c' (r +:+ b))).
    destruct (Ascii.eqb c replaceToken && Ascii.eqb c' replaceToken) eqn:E.
    + apply both_tokens in E as [-> ->].
      rewrite !stringReplace_marker, IHr. now rewrite append_assoc_s.
    + rewrite !stringReplace_byte by exact E.
      change (String c' (r +:+ b)) with (String c' r +:+ b). now rewrite IHc.
Qed.

Lemma stringReplace_app_left (pid : Z) (a b : string) :
  last_byte a <> replaceToken ->
  stringReplace pid (a +:+ b) = stringReplace pid a +:+ stringReplace pid b.
Proof.
  induction a as [| c | c c' r IHr IHc] using string_pair_ind; intros Ha.
  - reflexivity.
  - rewrite stringReplace_last. cbn [String.append].
    destruct b as [|c' r]; [now rewrite stringReplace_last|].
    apply stringReplace_byte. cbn in Ha.
    apply Ascii.eqb_neq in Ha. now rewrite Ha.
  - change (String c (String c' r) +:+ b) with (String c (String c' (r +:+ b))).
    rewrite last_byte_cons in Ha.
    destruct (Ascii.eqb c replaceToken && Ascii.eqb c' replaceToken) eqn:E.
    + apply both_tokens in E as [-> ->].
      rewrite !stringReplace_marker, IHr; [now rewrite append_assoc_s|].
      destruct r as [|c'' r]; [now contradiction Ha | exact Ha].
    + rewrite !stringReplace_byte by exact E.
      change (String c' (r +:+ b)) with (String c' r +:+ b). now rewrite IHc.
Qed.

(** X6.  Expansion goes through a concatenation unless the cut falls
    between two [$]: when [a] does not end in [$], or [b] does not begin with
    [$], the expansion of [a b] is the expansion of [a] followed by that
    of [b]. *)
Theorem X6_stringReplace_append (pid : Z) (a b : string) :
  last_byte a <> replaceToken \/ first_byte b <> replaceToken ->
  stringReplace pid (a +:+ b) = stringReplace pid a +:+ stringReplace pid b.
Proof.
  intros [H|H]; [now apply stringReplace_app_left | now apply stringReplace_app_right].
Qed.

Lemma X6_stringReplace_append_witness :
  stringReplace 1234 ("log$$" +:+ ".txt") = "log1234" +:+ ".txt".
Proof.
  rewrite (X6_stringReplace_append 1234 "log$$" ".txt").
  - reflexivity.
  - right. discriminate.
Defined.

(** ** The job table: launch, reap, shutdown *)

Lemma track_child_length (p : Z) (slots : list Z) :
  length (track_child p slots) = length slots.
Proof.
  induction slots as [|x more IH]; [reflexivity|].
  simpl. destruct (x =? 0)%Z; simpl; now rewrite ?IH.
Qed.

Lemma track_child_full (p : Z) (slots : list Z) :
  0%Z ∉ slots -> track_child p slots = slots.
Proof.
  induction slots as [|x more IH]; intros H; [reflexivity|].
  apply not_elem_of_cons in H as [Hx H]. simpl.
  destruct (Z.eqb_spec x 0) as [->|_]; [contradiction|].
  now rewrite IH.
Qed.

Lemma track_child_room (p : Z) (slots : list Z) :
  0%Z ∈ slots -> p ∈ track_child p slots.
Proof.
  induction slots as [|x more IH]; intros H; [now apply elem_of_nil in H|].
  simpl. destruct (Z.eqb_spec x 0) as [->|Hx]; [left|].
  right. apply IH. apply elem_of_cons in H as [H|H]; [congruence | exact H].
Qed.

Lemma untrack_track (p : Z) (slots : list Z) :
  p <> 0%Z -> p ∉ slots -> untrack_child p (track_child p slots) = slots.
Proof.
  intros Hp. induction slots as [|x more IH]; intros H; [reflexivity|].
  apply not_elem_of_cons in H as [Hx H]. simpl.
  destruct (Z.eqb_spec x 0) as [->|H0]; simpl.
  - now rewrite Z.eqb_refl.
  - destruct (Z.eqb_spec x p) as [->|_]; [contradiction|]. now rewrite IH.
Qed.

Lemma execCmd_background (line : command) (os : answers) (st : shell) :
  isBackground line = true -> (0 < fork_result os)%Z ->
  execCmd line os st
  = log (ESigaction SIGCHLD)
      (log (EWrite (line_of ("background pid is " +:+ decimal (fork_result os))))
         (set_children (track_child (fork_result os) (children st))
            (log EFork st))).
Proof.
  intros Hbg Hpos. unfold execCmd. rewrite Hbg.
  destruct (Z.eqb_spec (fork_result os) (-1)); [lia|].
  destruct (Z.eqb_spec (fork_result os) 0); [lia|]. reflexivity.
Qed.

Lemma launch_then_reap (line : command) (os : answers) (st : shell)
  (p : positive) (s : wstatus) :
  isBackground line = true ->
  fork_result os = Z.pos p ->
  Z.pos p ∉ children st ->
  children (snd (handleSIGCHLD [(p, s)] (execCmd line os st))) = children st.
Proof.
  intros Hbg Hp Hnew. rewrite execCmd_background by (try exact Hbg; lia).
  rewrite handleSIGCHLD_cons. cbn [handleSIGCHLD snd].
  rewrite (proj1 (pushMessageQueue_other _ _)). cbn. rewrite Hp.
  now apply untrack_track.
Qed.

Lemma execCmd_queue (line : command) (os : answers) (st : shell) :
  msgQueue (execCmd line os st) = msgQueue st
  /\ queuePosition (execCmd line os st) = queuePosition st
  /\ queue_stray (execCmd line os st) = queue_stray st.
Proof.
  unfold execCmd.
  destruct (fork_result os =? -1)%Z; [now repeat split|].
  destruct (fork_result os =? 0)%Z; [now repeat split|].
  destruct (isBackground line); [now repeat split|].
  destruct (WIFEXITED (wait_status os)); now repeat split.
Qed.

(** X7.  Launch and reap undo each other on the job table: after a
    background launch whose child has a process id not yet in the table, one
    run of the handler that reaps this child, with a free slot in the queue
    for its message, leaves the table as it was before the launch, whether or
    not the table had a free slot; and no store leaves the queue. *)
Theorem X7_launch_then_reap (line : command) (os : answers) (st : shell)
  (p : positive) (s : wstatus) :
  isBackground line = true ->
  fork_result os = Z.pos p ->
  Z.pos p ∉ children st ->
  length (msgQueue st) = QUEUE_SLOTS ->
  (0 <= queuePosition st < Z.of_nat QUEUE_SLOTS)%Z ->
  children (snd (handleSIGCHLD [(p, s)] (execCmd line os st))) = children st
  /\ queue_stray (snd (handleSIGCHLD [(p, s)] (execCmd line os st))) = queue_stray st.
Proof.
  intros Hbg Hp Hnew Hlen Hroom.
  split; [now apply launch_then_reap|].
  destruct (execCmd_queue line os st) as (Hq & Hn & Hs).
  rewrite handleSIGCHLD_in_bounds; [exact Hs | rewrite Hn; lia |].
  rewrite Hn, Hq, Hlen. cbn [length]. lia.
Qed.

Lemma X7_launch_then_reap_witness :
  children (snd (handleSIGCHLD [(9%positive, Exited 0)]
                   (execCmd (Command [Some "sleep"] (Some "/dev/null")
                               (Some "/dev/null") true)
                      (Answers 9 (Exited 0) true) initial_shell)))
  = children initial_shell.
Proof.
  apply X7_launch_then_reap;
    [reflexivity | reflexivity | | reflexivity | unfold QUEUE_SLOTS; cbn; lia].
  unfold initial_shell. cbn [children]. intros H.
  apply elem_of_replicate in H as [H _]. discriminate H.
Defined.

Lemma launch_tracked (line : command) (os : answers) (st : shell) (p : positive) :
  isBackground line = true ->
  fork_result os = Z.pos p ->
  Z.pos p ∉ children st ->
  (Z.pos p ∈ tracked (execCmd line os st) <-> 0%Z ∈ children st)
  /\ (0%Z ∉ children st -> children (execCmd line os st) = children st)
  /\ EWrite (line_of ("background pid is " +:+ decimal (Z.pos p)))
       ∈ trace (execCmd line os st).
Proof.
  intros Hbg Hp Hnew. rewrite execCmd_background by (try exact Hbg; lia).
  unfold tracked. cbn. rewrite Hp. split; [|split].
  - rewrite list_elem_of_filter. split.
    + intros [_ Hin]. destruct (decide (0%Z ∈ children st)) as [H|H]; [exact H|].
      rewrite track_child_full in Hin by exact H. contradiction.
    + intros H. split; [discriminate | now apply track_child_room].
  - apply track_child_full.
  - rewrite !elem_of_app. left. right. left.
Qed.

(** X8.  A background launch always announces the process id, but records
    it only if the job table has an empty slot: with the table full the table
    is left as it is and the child is not among the processes that shutdown
    terminates; with an empty slot it is. *)
Theorem X8_launch_tracked (line : command) (os : answers) (st : shell) (p : positive) :
  isBackground line = true ->
  fork_result os = Z.pos p ->
  Z.pos p ∉ children st ->
  (Z.pos p ∈ tracked (execCmd line os st) <-> 0%Z ∈ children st)
  /\ (0%Z ∉ children st -> children (execCmd line os st) = children st)
  /\ EWrite (line_of ("background pid is " +:+ decimal (Z.pos p)))
       ∈ trace (execCmd line os st).
Proof. apply launch_tracked. Qed.

Lemma X8_launch_tracked_witness :
  let full := set_children (replicate CHILD_SLOTS 5%Z) initial_shell in
  let bg := Command [Some "sleep"] (Some "/dev/null") (Some "/dev/null") true in
  children (execCmd bg (Answers 9 (Exited 0) true) full) = children full
  /\ 9%Z ∈ tracked (execCmd bg (Answers 9 (Exited 0) true) initial_shell).
Proof.
  intros full bg. split.
  - destruct (X8_launch_tracked bg (Answers 9 (Exited 0) true) full 9%positive)
      as (_ & H & _); [reflexivity | reflexivity | |].
    + intros H. apply elem_of_replicate in H as [H _]. discriminate H.
    + apply H. intros H0. apply elem_of_replicate in H0 as [H0 _]. discriminate H0.
  - destruct (X8_launch_tracked bg (Answers 9 (Exited 0) true) initial_shell 9%positive)
      as (H & _); [reflexivity | reflexivity | |].
    + intros H. apply elem_of_replicate in H as [H _]. discriminate H.
    + apply H. apply elem_of_replicate. split; [reflexivity | discriminate].
Defined.

(** ** The queue between two prompts *)

Lemma handleSIGCHLD_fills (terminated : list (positive * wstatus)) (st : shell) :
  (0 <= queuePosition st)%Z ->
  (queuePosition st + Z.of_nat (length terminated)
   <= Z.of_nat (length (msgQueue st)))%Z ->
  msgQueue (snd (handleSIGCHLD terminated st))
  = take (Z.to_nat (queuePosition st)) (msgQueue st)
      ++ map Some (done_messages terminated)
      ++ drop (Z.to_nat (queuePosition st) + length terminated) (msgQueue st)
  /\ queue_stray (snd (handleSIGCHLD terminated st)) = queue_stray st.
Proof.
  revert st. induction terminated as [|[p s] more IH]; intros st H0 Hroom.
  - cbn. rewrite Nat.add_0_r, take_drop. now split.
  - rewrite handleSIGCHLD_cons. cbn [length] in Hroom.
    set (st0 := set_children (untrack_child (Z.pos p) (children st)) st).
    rewrite pushMessageQueue_room by (subst st0; cbn; lia).
    match goal with |- context [handleSIGCHLD more ?x] => set (st1 := x) end.
    destruct (IH st1) as [-> ->]; [subst st1; cbn; lia | |].
    { subst st1. cbn. rewrite length_insert. lia. }
    subst st1 st0. cbn [msgQueue queuePosition queue_stray set_children].
    split; [|reflexivity].
    set (k := Z.to_nat (queuePosition st)).
    assert (Hk : (k < length (msgQueue st))%nat) by lia.
    replace (Z.to_nat (queuePosition st + 1)) with (S k) by lia.
    rewrite (take_S_r _ k (Some (done_message (Z.pos p) s)))
      by now apply list_lookup_insert_eq.
    rewrite take_insert_ge by lia. rewrite drop_insert_lt by lia.
    cbn [done_messages map length fst snd]. rewrite <- app_assoc. cbn [app].
    now replace (S k + length more)%nat with (k + S (length more))%nat by lia.
Qed.

Lemma omap_Some {A : Type} (l : list A) (n : nat) :
  omap id (map Some l ++ replicate n None) = l.
Proof.
  induction l as [|x l IH]; cbn.
  - apply omap_replicate_None.
  - now rewrite IH.
Qed.

Lemma queue_between_prompts (terminated : list (positive * wstatus)) (st : shell) :
  drained st ->
  (length terminated <= QUEUE_SLOTS)%nat ->
  queued (snd (handleSIGCHLD terminated st)) = done_messages terminated
  /\ trace (clearMessageQueue (snd (handleSIGCHLD terminated st)))
     = trace st ++ map print_message (done_messages terminated)
  /\ drained (clearMessageQueue (snd (handleSIGCHLD terminated st)))
  /\ trace (clearMessageQueue (clearMessageQueue (snd (handleSIGCHLD terminated st))))
     = trace (clearMessageQueue (snd (handleSIGCHLD terminated st))).
Proof.
  intros [Hq Hp] Hlen.
  assert (Hlq : length (msgQueue st) = QUEUE_SLOTS)
    by (rewrite Hq; apply length_replicate).
  destruct (handleSIGCHLD_position terminated st) as (_ & Hl & _ & Ht).
  destruct (handleSIGCHLD_fills terminated st) as [Hm _]; [lia | lia |].
  assert (Hqd : queued (snd (handleSIGCHLD terminated st)) = done_messages terminated).
  { unfold queued. rewrite Hm, Hp, Hq. cbn [Z.to_nat take app Nat.add].
    rewrite drop_replicate. apply omap_Some. }
  split; [exact Hqd|].
  rewrite clearMessageQueue_sized by congruence.
  cbn [trace msgQueue queuePosition]. rewrite Hqd, Ht.
  split; [reflexivity|]. split; [now split|].
  rewrite clearMessageQueue_sized by (cbn [msgQueue]; apply length_replicate).
  cbn [trace]. unfold queued. cbn [msgQueue].
  rewrite omap_replicate_None. cbn. now rewrite app_nil_r.
Qed.

(** X9.  The queue is first in, first out between two prompts: when the
    handler reaps at most 50 children after a drain, the queue holds exactly
    their messages in the order of reaping; the next drain writes them in
    that order and nothing else, and leaves the queue drained, so that a
    further drain writes nothing. *)
Theorem X9_queue_between_prompts (terminated : list (positive * wstatus)) (st : shell) :
  drained st ->
  (length terminated <= QUEUE_SLOTS)%nat ->
  queued (snd (handleSIGCHLD terminated st)) = done_messages terminated
  /\ trace (clearMessageQueue (snd (handleSIGCHLD terminated st)))
     = trace st ++ map print_message (done_messages terminated)
  /\ drained (clearMessageQueue (snd (handleSIGCHLD terminated st)))
  /\ trace (clearMessageQueue (clearMessageQueue (snd (handleSIGCHLD terminated st))))
     = trace (clearMessageQueue (snd (handleSIGCHLD terminated st))).
Proof. apply queue_between_prompts. Qed.

Lemma X9_queue_between_prompts_witness :
  trace (clearMessageQueue
           (snd (handleSIGCHLD [(7%positive, Signaled 15); (5%positive, Exited 0)]
                   initial_shell)))
  = [print_message (line_of "background pid 7 is done: terminated by signal 15");
     print_message (line_of "background pid 5 is done: exit value 0")].
Proof.
  destruct (X9_queue_between_prompts
              [(7%positive, Signaled 15); (5%positive, Exited 0)] initial_shell)
    as (_ & Ht & _).
  - split; reflexivity.
  - unfold QUEUE_SLOTS. cbn. lia.
  - rewrite Ht. reflexivity.
Defined.

(** ** SIGTSTP *)

Lemma handleSIGTSTP_effect (st : shell) :
  handleSIGTSTP st
  = Shell (msgQueue st) (queuePosition st) (children st) (negb (fgMode st)) (stat st)
      (queue_stray st)
      (trace st
         ++ [EWrite (String newline
                       (line_of (if fgMode st
                                 then "Exiting foreground-only mode"
                                 else "Entering foreground-only mode (& is now ignored)")));
             EWrite ": "]).
Proof.
  unfold handleSIGTSTP, log. destruct st as [q n c [|] s qs t]; cbn;
    now rewrite <- ?app_assoc.
Qed.

Lemma after_SIGTSTP_effect (n : nat) (st : shell) :
  fgMode (after_SIGTSTP n st) = (if Nat.even n then fgMode st else negb (fgMode st))
  /\ msgQueue (after_SIGTSTP n st) = msgQueue st
  /\ queuePosition (after_SIGTSTP n st) = queuePosition st
  /\ children (after_SIGTSTP n st) = children st
  /\ stat (after_SIGTSTP n st) = stat st
  /\ length (trace (after_SIGTSTP n st)) = (length (trace st) + 2 * n)%nat.
Proof.
  unfold after_SIGTSTP. induction n as [|n (Hf & Hq & Hp & Hc & Hs & Ht)].
  - cbn. repeat split. lia.
  - rewrite Nat.iter_succ, handleSIGTSTP_effect.
    cbn [fgMode msgQueue queuePosition children stat trace].
    rewrite Hf, Hq, Hp, Hc, Hs, length_app, Ht. cbn [length].
    rewrite Nat.even_succ, <- Nat.negb_even.
    repeat split; [|lia].
    destruct (Nat.even n), (fgMode st); reflexivity.
Qed.

Lemma announcements_length (n : nat) (mode : bool) :
  length (announcements n mode) = (2 * n)%nat.
Proof.
  revert mode. induction n as [|n IH]; intros mode; [reflexivity|].
  cbn [announcements announcement app length]. rewrite IH. lia.
Qed.

Lemma after_SIGTSTP_trace (n : nat) (st : shell) :
  trace (after_SIGTSTP n st) = trace st ++ announcements n (fgMode st).
Proof.
  unfold after_SIGTSTP. revert st. induction n as [|n IH]; intros st.
  - cbn. now rewrite app_nil_r.
  - rewrite Nat.iter_succ_r, IH, handleSIGTSTP_effect.
    cbn [trace fgMode announcements]. unfold announcement.
    now rewrite <- app_assoc.
Qed.

(** X10.  SIGTSTP is a toggle: after [n] deliveries foreground-only mode
    is what it was when [n] is even and the opposite when [n] is odd.  Each
    delivery writes the announcement of the mode it leaves or enters
    ([Exiting foreground-only mode] or [Entering foreground-only mode (& is
    now ignored)], between newlines) and then the prompt, and nothing else;
    the handler touches neither the message queue, nor the job table, nor
    the last status. *)
Theorem X10_SIGTSTP_toggles (n : nat) (st : shell) :
  fgMode (after_SIGTSTP n st) = (if Nat.even n then fgMode st else negb (fgMode st))
  /\ msgQueue (after_SIGTSTP n st) = msgQueue st
  /\ queuePosition (after_SIGTSTP n st) = queuePosition st
  /\ children (after_SIGTSTP n st) = children st
  /\ stat (after_SIGTSTP n st) = stat st
  /\ length (trace (after_SIGTSTP n st)) = (length (trace st) + 2 * n)%nat
  /\ trace (after_SIGTSTP n st) = trace st ++ announcements n (fgMode st)
  /\ trace (handleSIGTSTP st)
     = trace st
         ++ [EWrite (String newline
                       (line_of (if fgMode st
                                 then "Exiting foreground-only mode"
                                 else "Entering foreground-only mode (& is now ignored)")));
             EWrite ": "].
Proof.
  destruct (after_SIGTSTP_effect n st) as (H1 & H2 & H3 & H4 & H5 & H6).
  repeat (split; [assumption|]).
  split; [apply after_SIGTSTP_trace|].
  now rewrite handleSIGTSTP_effect.
Qed.

(** ** Built-ins, launches and the last status *)

Lemma clear_slots_keeps (idxs : list nat) (st : shell) :
  stat (foldl clear_slot st idxs) = stat st
  /\ children (foldl clear_slot st idxs) = children st.
Proof.
  revert st. induction idxs as [|i idxs IH]; intros st; [now split|].
  cbn [foldl]. destruct (IH (clear_slot st i)) as [-> ->].
  unfold clear_slot. now destruct (msgQueue st !! i) as [[m|]|].
Qed.

Lemma log_keeps (e : event) (st : shell) :
  stat (log e st) = stat st /\ children (log e st) = children st.
Proof. now split. Qed.

Lemma set_queuePosition_keeps (n : Z) (st : shell) :
  stat (set_queuePosition n st) = stat st
  /\ children (set_queuePosition n st) = children st.
Proof. now split. Qed.

Lemma clearMessageQueue_keeps (st : shell) :
  stat (clearMessageQueue st) = stat st
  /\ children (clearMessageQueue st) = children st.
Proof.
  unfold clearMessageQueue.
  rewrite (proj1 (set_queuePosition_keeps _ _)), (proj2 (set_queuePosition_keeps _ _)).
  apply clear_slots_keeps.
Qed.

Lemma prompt_state (st : shell) :
  fgMode (log (EWrite ": ") (clearMessageQueue st)) = fgMode st
  /\ stat (log (EWrite ": ") (clearMessageQueue st)) = stat st
  /\ children (log (EWrite ": ") (clearMessageQueue st)) = children st
  /\ exists ws, trace (log (EWrite ": ") (clearMessageQueue st))
                = trace st ++ map EWrite ws.
Proof.
  destruct (clearMessageQueue_other st) as [Hf [ws Ht]].
  destruct (clearMessageQueue_keeps st) as [Hs Hc].
  rewrite (proj1 (log_other _ _)), (proj1 (log_keeps _ _)), (proj2 (log_keeps _ _)).
  split; [exact Hf|]. split; [exact Hs|]. split; [exact Hc|].
  exists (ws ++ [": "]). rewrite (proj2 (log_other _ _)), Ht, map_app.
  now rewrite <- app_assoc.
Qed.

Lemma is_builtin_false (prog : string) :
  is_builtin prog = false ->
  String.eqb prog "exit" = false /\ String.eqb prog "status" = false
  /\ String.eqb prog "cd" = false.
Proof.
  unfold is_builtin. intros H.
  apply orb_false_iff in H as [H H3]. apply orb_false_iff in H as [H1 H2]. auto.
Qed.

Lemma main_turn_dispatch (pid : Z) (os : answers) (line : string) (st : shell)
  (cmd : command) (prog : string) :
  descriptor (fgMode st) pid line = Some cmd ->
  arg_at cmd 0 = Some prog ->
  main_turn pid os line st
  = let st' := log (EWrite ": ") (clearMessageQueue st) in
    if String.eqb prog "exit" then (exitShell st', Terminated 3)
    else if String.eqb prog "status" then (status st', Reprompt)
    else if String.eqb prog "cd" then (cd (arg_at cmd 1) os st', Reprompt)
    else (execCmd cmd os st', Reprompt).
Proof.
  intros Hd Ha. unfold main_turn.
  rewrite (proj1 (prompt_state st)), Hd, Ha. reflexivity.
Qed.

Lemma execCmd_foreground (line : command) (os : answers) (st : shell) :
  isBackground line = false -> (0 < fork_result os)%Z ->
  execCmd line os st
  = set_stat (status_text (wait_status os))
      (log (EWaitpid (fork_result os)) (log (ESigaction SIGINT) (log EFork st))).
Proof.
  intros Hbg Hpos. unfold execCmd. rewrite Hbg.
  destruct (Z.eqb_spec (fork_result os) (-1)); [lia|].
  destruct (Z.eqb_spec (fork_result os) 0); [lia|].
  now destruct (wait_status os).
Qed.

Lemma status_after_foreground (pid : Z) (os : answers) (line : string) (st : shell)
  (cmd : command) (prog : string) :
  descriptor (fgMode st) pid line = Some cmd ->
  arg_at cmd 0 = Some prog ->
  is_builtin prog = false ->
  isBackground cmd = false ->
  (0 < fork_result os)%Z ->
  stat (fst (main_turn pid os line st)) = status_text (wait_status os)
  /\ (forall os2 line2 cmd2,
        descriptor (fgMode (fst (main_turn pid os line st))) pid line2 = Some cmd2 ->
        arg_at cmd2 0 = Some "status" ->
        last (trace (fst (main_turn pid os2 line2 (fst (main_turn pid os line st)))))
        = Some (EWrite (status_text (wait_status os)))
        /\ stat (fst (main_turn pid os2 line2 (fst (main_turn pid os line st))))
           = status_text (wait_status os)).
Proof.
  intros Hd Ha Hb Hfg Hpos.
  destruct (is_builtin_false prog Hb) as (H1 & H2 & H3).
  rewrite (main_turn_dispatch pid os line st cmd prog Hd Ha).
  cbn zeta. rewrite H1, H2, H3. cbn [fst].
  rewrite execCmd_foreground by assumption.
  set (st1 := set_stat _ _).
  assert (Hs1 : stat st1 = status_text (wait_status os)) by reflexivity.
  split; [exact Hs1|].
  intros os2 line2 cmd2 Hd2 Ha2.
  rewrite (main_turn_dispatch pid os2 line2 st1 cmd2 "status" Hd2 Ha2).
  cbv zeta. change (String.eqb "status" "exit") with false.
  change (String.eqb "status" "status") with true. cbv iota. cbn [fst].
  unfold status.
  rewrite (proj2 (log_other _ _)), last_snoc, !(proj1 (log_keeps _ _)).
  rewrite (proj1 (clearMessageQueue_keeps _)), Hs1. now split.
Qed.

(** X11.  [status] reports the last foreground command: after a turn that
    runs a command which is not a built-in in the foreground, the last status
    is [exit value N] or [terminated by signal N] (with its newline), as the
    child ended; a later [status] line writes exactly that text as the last
    thing of its turn and leaves it unchanged. *)
Theorem X11_status_after_foreground (pid : Z) (os : answers) (line : string)
  (st : shell) (cmd : command) (prog : string) :
  descriptor (fgMode st) pid line = Some cmd ->
  arg_at cmd 0 = Some prog ->
  is_builtin prog = false ->
  isBackground cmd = false ->
  (0 < fork_result os)%Z ->
  stat (fst (main_turn pid os line st)) = status_text (wait_status os)
  /\ (forall os2 line2 cmd2,
        descriptor (fgMode (fst (main_turn pid os line st))) pid line2 = Some cmd2 ->
        arg_at cmd2 0 = Some "status" ->
        last (trace (fst (main_turn pid os2 line2 (fst (main_turn pid os line st)))))
        = Some (EWrite (status_text (wait_status os)))
        /\ stat (fst (main_turn pid os2 line2 (fst (main_turn pid os line st))))
           = status_text (wait_status os)).
Proof. apply status_after_foreground. Qed.

Lemma X11_status_after_foreground_witness :
  let st1 := fst (main_turn 1234 (Answers 9 (Exited 7) true) (line_of "false")
                    initial_shell) in
  stat st1 = line_of "exit value 7"
  /\ last (trace (fst (main_turn 1234 (Answers 0 (Exited 0) true) (line_of "status") st1)))
     = Some (EWrite (line_of "exit value 7")).
Proof.
  intros st1.
  destruct (X11_status_after_foreground 1234 (Answers 9 (Exited 7) true)
              (line_of "false") initial_shell
              (Command (Some "false" :: replicate 512 None) None None false) "false")
    as [Hs Hn]; [reflexivity | reflexivity | reflexivity | reflexivity | cbn; lia |].
  split; [exact Hs|].
  apply (Hn (Answers 0 (Exited 0) true) (line_of "status")
            (Command (Some "status" :: replicate 512 None) None None false));
    reflexivity.
Defined.

Lemma kill_slots_kills (idxs : list nat) (st : shell) :
  exists ks, trace (foldl kill_slot st idxs) = trace st ++ map terminate ks.
Proof.
  revert st. induction idxs as [|i idxs IH]; intros st.
  - exists []. cbn. now rewrite app_nil_r.
  - cbn [foldl]. destruct (IH (kill_slot st i)) as [ks ->].
    unfold kill_slot. destruct (children st !! i) as [c|]; [|now exists ks].
    destruct (c =? 0)%Z; [now exists ks|].
    exists (c :: ks). cbn. now rewrite <- app_assoc.
Qed.

Lemma existsb_fork_writes (ws : list string) (evs : list event) :
  existsb is_fork (map EWrite ws ++ evs) = existsb is_fork evs.
Proof. now rewrite existsb_app, writes_no_fork. Qed.

Lemma kills_no_fork (ks : list Z) : existsb is_fork (map terminate ks) = false.
Proof. induction ks as [|k ks IH]; [reflexivity | exact IH]. Qed.

Lemma spawned_suffix (st st' : shell) (evs : list event) :
  trace st' = trace st ++ evs -> spawned st st' = existsb is_fork evs.
Proof. intros H. unfold spawned. now rewrite H, drop_app_length. Qed.

Lemma exitShell_no_fork (st : shell) :
  exists evs, trace (exitShell st) = trace st ++ evs /\ existsb is_fork evs = false.
Proof.
  unfold exitShell. rewrite (proj2 (log_other _ _)).
  destruct (kill_slots_kills (seq 0 CHILD_SLOTS) (clearMessageQueue st)) as [ks ->].
  destruct (clearMessageQueue_other st) as [_ [ws ->]].
  exists (map EWrite ws ++ map terminate ks ++ [EExit 3]).
  split; [now rewrite <- !app_assoc|].
  now rewrite existsb_fork_writes, existsb_app, kills_no_fork.
Qed.

Lemma execCmd_forks (line : command) (os : answers) (st : shell) :
  exists evs, trace (execCmd line os st) = trace st ++ EFork :: evs.
Proof.
  unfold execCmd.
  destruct (fork_result os =? -1)%Z; [|destruct (fork_result os =? 0)%Z;
    [|destruct (isBackground line); [|destruct (WIFEXITED (wait_status os))]]];
    cbn; eexists; rewrite <- ?app_assoc; reflexivity.
Qed.

Lemma fork_iff_not_builtin (pid : Z) (os : answers) (line : string) (st : shell)
  (cmd : command) (prog : string) :
  descriptor (fgMode st) pid line = Some cmd ->
  arg_at cmd 0 = Some prog ->
  spawned st (fst (main_turn pid os line st)) = negb (is_builtin prog).
Proof.
  intros Hd Ha.
  rewrite (main_turn_dispatch pid os line st cmd prog Hd Ha). cbn zeta.
  destruct (prompt_state st) as (_ & _ & _ & ws & Ht).
  unfold is_builtin.
  destruct (String.eqb prog "exit").
  { cbn [fst orb negb].
    destruct (exitShell_no_fork (log (EWrite ": ") (clearMessageQueue st)))
      as (evs & He & Hn).
    rewrite (spawned_suffix _ _ (map EWrite ws ++ evs))
      by (now rewrite He, Ht, <- app_assoc).
    now rewrite existsb_fork_writes. }
  destruct (String.eqb prog "status").
  { cbn [fst orb negb]. unfold status.
    rewrite (spawned_suffix _ _ (map EWrite ws ++ [EWrite (stat
               (log (EWrite ": ") (clearMessageQueue st)))]))
      by (now rewrite (proj2 (log_other _ _)), Ht, <- app_assoc).
    now rewrite existsb_fork_writes. }
  destruct (String.eqb prog "cd").
  { cbn [fst orb negb]. unfold cd.
    destruct (arg_at cmd 1) as [path|].
    - destruct (chdir_ok os).
      + rewrite (spawned_suffix _ _ (map EWrite ws ++ [EChdir (Some path)]))
          by (now rewrite (proj2 (log_other _ _)), Ht, <- app_assoc).
        now rewrite existsb_fork_writes.
      + rewrite (spawned_suffix _ _ (map EWrite ws
                   ++ [EChdir (Some path); EPerror "cd "]))
          by (do 2 rewrite (proj2 (log_other _ _)); now rewrite Ht, <- !app_assoc).
        now rewrite existsb_fork_writes.
    - rewrite (spawned_suffix _ _ (map EWrite ws ++ [EChdir None]))
        by (now rewrite (proj2 (log_other _ _)), Ht, <- app_assoc).
      now rewrite existsb_fork_writes. }
  cbn [fst orb negb].
  destruct (execCmd_forks cmd os (log (EWrite ": ") (clearMessageQueue st)))
    as [evs He].
  rewrite (spawned_suffix _ _ (map EWrite ws ++ EFork :: evs))
    by (now rewrite He, Ht, <- app_assoc).
  now rewrite existsb_fork_writes.
Qed.

(** X12.  A turn of the loop forks exactly when it has built a descriptor
    whose program is not one of the built-ins [exit], [status] and [cd]: the
    built-ins run in the shell itself, every other command goes to [fork]. *)
Theorem X12_fork_iff_not_builtin (pid : Z) (os : answers) (line : string)
  (st : shell) (cmd : command) (prog : string) :
  descriptor (fgMode st) pid line = Some cmd ->
  arg_at cmd 0 = Some prog ->
  spawned st (fst (main_turn pid os line st)) = negb (is_builtin prog).
Proof. apply fork_iff_not_builtin. Qed.

Lemma X12_fork_iff_not_builtin_witness :
  spawned initial_shell
    (fst (main_turn 1234 (Answers 9 (Exited 0) true) (line_of "cd /tmp") initial_shell))
  = false
  /\ spawned initial_shell
       (fst (main_turn 1234 (Answers 9 (Exited 0) true) (line_of "ls") initial_shell))
     = true.
Proof.
  split.
  - apply (X12_fork_iff_not_builtin 1234 (Answers 9 (Exited 0) true)
             (line_of "cd /tmp") initial_shell
             (Command (Some "cd" :: Some "/tmp" :: replicate 511 None) None None false)
             "cd"); reflexivity.
  - apply (X12_fork_iff_not_builtin 1234 (Answers 9 (Exited 0) true)
             (line_of "ls") initial_shell
             (Command (Some "ls" :: replicate 512 None) None None false)
             "ls"); reflexivity.
Defined.

(** ** The child: redirections before exec *)

Lemma child_input_failure (line : command) (os : child_answers) (path : string) :
  inputFile line = Some path ->
  (open_read os = -1 \/ dup_read os = -1)%Z ->
  existsb is_open_write (execChild line os) = false
  /\ existsb is_exec (execChild line os) = false
  /\ last (execChild line os) = Some (CExit 1)
  /\ (open_read os = (-1)%Z ->
      CPrint (line_of ("cannot open " +:+ path +:+ " for input"))
        ∈ execChild line os).
Proof.
  intros Hi Hfail. child_cases line os; cbn in Hi; try discriminate Hi;
    injection Hi as ->;
    repeat split; try reflexivity; try (intros; lia); try lia;
    intros _; right; left.
Qed.

(** X13.  When the input redirection of a child fails (the file cannot be
    opened, or [dup2] fails), the child exits with status 1; it never opens,
    creates or truncates the output file, and never reaches [execvp].  When
    it is the [open] that fails, the child prints [cannot open PATH for
    input]. *)
Theorem X13_child_input_failure (line : command) (os : child_answers) (path : string) :
  inputFile line = Some path ->
  (open_read os = -1 \/ dup_read os = -1)%Z ->
  existsb is_open_write (execChild line os) = false
  /\ existsb is_exec (execChild line os) = false
  /\ last (execChild line os) = Some (CExit 1)
  /\ (open_read os = (-1)%Z ->
      CPrint (line_of ("cannot open " +:+ path +:+ " for input"))
        ∈ execChild line os).
Proof. apply child_input_failure. Qed.

Lemma X13_child_input_failure_witness :
  execChild (Command [Some "cat"] (Some "missing") (Some "out") false)
    (ChildAnswers (-1) 0 4 1 true)
  = [COpenRead "missing"; CPrint (line_of "cannot open missing for input"); CExit 1]
  /\ existsb is_open_write
       (execChild (Command [Some "cat"] (Some "missing") (Some "out") false)
          (ChildAnswers (-1) 0 4 1 true)) = false.
Proof.
  split; [reflexivity|].
  apply (X13_child_input_failure _ _ "missing"); [reflexivity | left; reflexivity].
Defined.

Lemma child_exec_iff (line : command) (os : child_answers) :
  (existsb is_exec (execChild line os) = true
   <-> (inputFile line = None
        \/ (open_read os <> (-1)%Z /\ dup_read os <> (-1)%Z))
       /\ (outputFile line = None
           \/ (open_write os <> (-1)%Z /\ dup_write os <> (-1)%Z)))
  /\ (existsb is_exec (execChild line os) = true ->
      exists ev,
        execChild line os
        = ev ++ [CSignal SIGINT (if isBackground line then SIG_IGN else SIG_DFL);
                 CSignal SIGTSTP SIG_IGN;
                 CExecvp (arg_at line 0) (args line)]
             ++ (if exec_ok os then [] else [CPerror; CExit 1])
        /\ existsb is_exec ev = false)
  /\ (last (execChild line os) = Some (CExit 1)
      \/ (exec_ok os = true
          /\ last (execChild line os) = Some (CExecvp (arg_at line 0) (args line)))).
Proof.
  child_cases line os; (split; [|split]);
    try (intuition (try congruence; try discriminate); fail);
    try (intros H; try discriminate H;
         first [ exists []; split; reflexivity
               | eexists [_; _]; split; reflexivity
               | eexists [_; _; _; _]; split; reflexivity ]);
    first [ left; reflexivity | right; split; reflexivity ].
Qed.

(** X14.  The child reaches [execvp] exactly when every redirection that
    the descriptor gives has been opened and installed with success.  When it
    does, the last things before [execvp] are the two signal settings
    (SIGINT ignored for a background command and default for a foreground
    one, SIGTSTP ignored), and [execvp] gets [args[0]] and [args].  In
    every case the child either is replaced by the program or exits with
    status 1. *)
Theorem X14_child_exec_iff (line : command) (os : child_answers) :
  (existsb is_exec (execChild line os) = true
   <-> (inputFile line = None
        \/ (open_read os <> (-1)%Z /\ dup_read os <> (-1)%Z))
       /\ (outputFile line = None
           \/ (open_write os <> (-1)%Z /\ dup_write os <> (-1)%Z)))
  /\ (existsb is_exec (execChild line os) = true ->
      exists ev,
        execChild line os
        = ev ++ [CSignal SIGINT (if isBackground line then SIG_IGN else SIG_DFL);
                 CSignal SIGTSTP SIG_IGN;
                 CExecvp (arg_at line 0) (args line)]
             ++ (if exec_ok os then [] else [CPerror; CExit 1])
        /\ existsb is_exec ev = false)
  /\ (last (execChild line os) = Some (CExit 1)
      \/ (exec_ok os = true
          /\ last (execChild line os) = Some (CExecvp (arg_at line 0) (args line)))).
Proof. apply child_exec_iff. Qed.

Lemma X14_child_exec_iff_witness :
  existsb is_exec
    (execChild (Command [Some "sort"] (Some "in") (Some "out") true)
       (ChildAnswers 3 0 4 1 true)) = true.
Proof.
  apply (proj1 (X14_child_exec_iff
                  (Command [Some "sort"] (Some "in") (Some "out") true)
                  (ChildAnswers 3 0 4 1 true))).
  cbn. split; right; split; discriminate.
Defined.

(** ** The bounds of the argument array *)

(** X15.  Whatever the tokens, [args] keeps its 513 slots and at most one
    store of [processInput] falls outside it, the one at index 513; a line
    with a program and at most 512 further tokens is stored wholly inside. *)
Theorem X15_args_bounds (mode : bool) (pid : Z) (toks : list string) (b : builder) :
  build mode pid toks = Some b ->
  length (args (newCmd b)) = 513%nat
  /\ (stray b = [] \/ exists v, stray b = [(513%Z, v)])
  /\ ((length toks <= 513)%nat -> stray b = []).
Proof.
  intros H. destruct (build_stray_cases mode pid toks b H) as [Hl Hs].
  split; [exact Hl|]. split; [exact Hs|].
  now apply (build_in_bounds mode pid toks b).
Qed.

Lemma X15_args_bounds_witness :
  exists b, build false 1234 ["ls"; "-l"] = Some b
            /\ length (args (newCmd b)) = 513%nat /\ stray b = [].
Proof.
  eexists. split; [reflexivity|].
  destruct (X15_args_bounds false 1234 ["ls"; "-l"] _ eq_refl) as (Hl & _ & Hs).
  split; [exact Hl | apply Hs; cbn; lia].
Defined.

(** ** What keeps the last status *)

Lemma set_children_stat (l : list Z) (st : shell) :
  stat (set_children l st) = stat st.
Proof. reflexivity. Qed.

Lemma status_kept (pid : Z) (os : answers) (line : string) (st : shell)
  (cmd : command) (prog : string) :
  descriptor (fgMode st) pid line = Some cmd ->
  arg_at cmd 0 = Some prog ->
  prog = "status" \/ prog = "cd"
  \/ (is_builtin prog = false /\ isBackground cmd = true /\ (0 < fork_result os)%Z) ->
  stat (fst (main_turn pid os line st)) = stat st
  /\ snd (main_turn pid os line st) = Reprompt.
Proof.
  intros Hd Ha Hcase.
  rewrite (main_turn_dispatch pid os line st cmd prog Hd Ha). cbv zeta.
  pose proof (proj1 (clearMessageQueue_keeps st)) as Hs.
  destruct Hcase as [->|[->|(Hb & Hbg & Hpos)]].
  - change (String.eqb "status" "exit") with false.
    change (String.eqb "status" "status") with true. cbv iota. cbn [fst snd].
    unfold status. rewrite !(proj1 (log_keeps _ _)), Hs. split; reflexivity.
  - change (String.eqb "cd" "exit") with false.
    change (String.eqb "cd" "status") with false.
    change (String.eqb "cd" "cd") with true. cbv iota. cbn [fst snd].
    unfold cd. destruct (arg_at cmd 1); [destruct (chdir_ok os)|];
      rewrite !(proj1 (log_keeps _ _)), Hs; split; reflexivity.
  - destruct (is_builtin_false prog Hb) as (-> & -> & ->). cbn [fst snd].
    rewrite execCmd_background by assumption.
    rewrite !(proj1 (log_keeps _ _)), set_children_stat.
    rewrite !(proj1 (log_keeps _ _)), Hs. split; reflexivity.
Qed.

(** X16.  The last status belongs to foreground commands only: a turn that
    runs [status] or [cd], or that launches a command in the background,
    leaves the last status as it was, and the loop goes on. *)
Theorem X16_status_kept (pid : Z) (os : answers) (line : string) (st : shell)
  (cmd : command) (prog : string) :
  descriptor (fgMode st) pid line = Some cmd ->
  arg_at cmd 0 = Some prog ->
  prog = "status" \/ prog = "cd"
  \/ (is_builtin prog = false /\ isBackground cmd = true /\ (0 < fork_result os)%Z) ->
  stat (fst (main_turn pid os line st)) = stat st
  /\ snd (main_turn pid os line st) = Reprompt.
Proof. apply status_kept. Qed.

Lemma X16_status_kept_witness :
  stat (fst (main_turn 1234 (Answers 9 (Exited 7) true) (line_of "sleep 5 &")
               initial_shell))
  = line_of "exit value 0".
Proof.
  apply (X16_status_kept 1234 (Answers 9 (Exited 7) true) (line_of "sleep 5 &")
           initial_shell
           (Command (Some "sleep" :: Some "5" :: replicate 511 None)
              (Some "/dev/null") (Some "/dev/null") true) "sleep").
  - reflexivity.
  - reflexivity.
  - right. right. repeat split.
Defined.

(** ** Lines and token sequences *)

Lemma strtok_seq_token (t cur rest : string) :
  delim_free t = true ->
  strtok_seq cur (t +:+ rest) = strtok_seq (cur +:+ t) rest.
Proof.
  revert cur. induction t as [|c t IH]; intros cur Ht.
  - cbn. now rewrite append_empty_r.
  - cbn in Ht. apply andb_true_iff in Ht as [Hc Ht]. apply negb_true_iff in Hc.
    cbn [String.append strtok_seq]. rewrite Hc, IH by exact Ht.
    now rewrite append_snoc.
Qed.

Lemma strtok_seq_joined (toks : list string) :
  Forall (fun t => t <> EmptyString /\ delim_free t = true) toks ->
  strtok_seq EmptyString (line_of (String.concat " " toks)) = toks.
Proof.
  unfold line_of. intros H. induction H as [|t toks [Hne Hfree] Htoks IH].
  - reflexivity.
  - destruct toks as [|u toks].
    + cbn [String.concat]. rewrite strtok_seq_token by exact Hfree.
      cbn. destruct t; [contradiction | reflexivity].
    + change (String.concat " " (t :: u :: toks))
        with (t +:+ " " +:+ String.concat " " (u :: toks)).
      rewrite !append_assoc_s, strtok_seq_token by exact Hfree.
      cbn [String.append strtok_seq is_delim].
      change (Ascii.eqb " " space || Ascii.eqb " " newline) with true. cbv iota.
      rewrite <- IH at 2.
      destruct t; [contradiction | reflexivity].
Qed.

(** X17.  The token sequences of lines are exactly the lists of non-empty
    strings free of spaces and newlines: every token of a line is one, and
    such a list is the token sequence of its tokens joined by single spaces
    and ended by a newline, so that [processInput] on that line builds the
    descriptor of the list. *)
Theorem X17_lines_and_tokens (mode : bool) (pid : Z) :
  (forall line,
     Forall (fun t => t <> EmptyString /\ delim_free t = true)
       (strtok_seq EmptyString line))
  /\ (forall toks,
        Forall (fun t => t <> EmptyString /\ delim_free t = true) toks ->
        strtok_seq EmptyString (line_of (String.concat " " toks)) = toks
        /\ processInput mode pid (line_of (String.concat " " toks))
           = processInput_tokens mode pid toks).
Proof.
  split.
  - intros line. now apply strtok_seq_tokens.
  - intros toks H. unfold processInput.
    now rewrite strtok_seq_joined.
Qed.

Lemma X17_lines_and_tokens_witness :
  strtok_seq EmptyString (line_of (String.concat " " ["cat"; "<"; "in"; "&"]))
  = ["cat"; "<"; "in"; "&"].
Proof.
  apply (proj2 (X17_lines_and_tokens false 1234) ["cat"; "<"; "in"; "&"]).
  repeat constructor; discriminate.
Defined.

(** ** The redirections that a line gives *)

(** The path that the loop leaves is the one it found, or the expansion of
    the operand of an operator that stands where operators are read. *)
Lemma consume_input_given (pid : Z) (toks : list string) (b : builder) :
  started b ->
  inputFile (newCmd (consume pid toks b)) = inputFile (newCmd b)
  \/ exists pre path post,
       toks = pre ++ "<" :: path :: post /\ settled pre = true
       /\ inputFile (newCmd (consume pid toks b)) = Some (stringReplace pid path).
Proof.
  revert b.
  induction toks as [| t | t u r IHr IHu] using list_pair_ind; intros b Hb.
  - now left.
  - left. destruct (token_cases t) as [->|[->|[->|(H1 & H2 & H3)]]].
    + now rewrite consume_lone_operator.
    + now rewrite consume_lone_operator.
    + now rewrite consume_amp.
    + rewrite consume_plain, consume_nil by assumption.
      now rewrite store_next_input.
  - destruct (token_cases t) as [->|[->|[->|(H1 & H2 & H3)]]].
    + rewrite consume_input by exact Hb. right.
      destruct (IHr (set_inputFile (Some (stringReplace pid u))
                       (set_isBackground false b)) Hb)
        as [E|(pre & path & post & -> & Hset & E)].
      * exists [], u, r. repeat split. exact E.
      * exists ("<" :: u :: pre), path, post. repeat split; [|exact E].
        now rewrite settled_operand.
    + rewrite consume_output by exact Hb.
      destruct (IHr (set_outputFile (Some (stringReplace pid u))
                       (set_isBackground false b)) Hb)
        as [E|(pre & path & post & -> & Hset & E)].
      * left. exact E.
      * right. exists (">" :: u :: pre), path, post. repeat split; [|exact E].
        now rewrite settled_operand.
    + rewrite consume_amp by exact Hb.
      destruct (IHu (set_isBackground true b) Hb)
        as [E|(pre & path & post & E' & Hset & E)].
      * left. exact E.
      * right. exists ("&" :: pre), path, post.
        split; [cbn; now f_equal | split; [now rewrite settled_plain | exact E]].
    + rewrite consume_plain by assumption.
      destruct (IHu (store_next (stringReplace pid t) (set_isBackground false b)))
        as [E|(pre & path & post & E' & Hset & E)]; [now apply store_next_started | |].
      * left. now rewrite store_next_input in E.
      * right. exists (t :: pre), path, post.
        split; [cbn; now f_equal | split; [|exact E]].
        rewrite settled_plain; [exact Hset | now apply is_redirect_no].
Qed.

Lemma consume_output_given (pid : Z) (toks : list string) (b : builder) :
  started b ->
  outputFile (newCmd (consume pid toks b)) = outputFile (newCmd b)
  \/ exists pre path post,
       toks = pre ++ ">" :: path :: post /\ settled pre = true
       /\ outputFile (newCmd (consume pid toks b)) = Some (stringReplace pid path).
Proof.
  revert b.
  induction toks as [| t | t u r IHr IHu] using list_pair_ind; intros b Hb.
  - now left.
  - left. destruct (token_cases t) as [->|[->|[->|(H1 & H2 & H3)]]].
    + now rewrite consume_lone_operator.
    + now rewrite consume_lone_operator.
    + now rewrite consume_amp.
    + rewrite consume_plain, consume_nil by assumption.
      now rewrite store_next_output.
  - destruct (token_cases t) as [->|[->|[->|(H1 & H2 & H3)]]].
    + rewrite consume_input by exact Hb.
      destruct (IHr (set_inputFile (Some (stringReplace pid u))
                       (set_isBackground false b)) Hb)
        as [E|(pre & path & post & -> & Hset & E)].
      * left. exact E.
      * right. exists ("<" :: u :: pre), path, post. repeat split; [|exact E].
        now rewrite settled_operand.
    + rewrite consume_output by exact Hb. right.
      destruct (IHr (set_outputFile (Some (stringReplace pid u))
                       (set_isBackground false b)) Hb)
        as [E|(pre & path & post & -> & Hset & E)].
      * exists [], u, r. repeat split. exact E.
      * exists (">" :: u :: pre), path, post. repeat split; [|exact E].
        now rewrite settled_operand.
    + rewrite consume_amp by exact Hb.
      destruct (IHu (set_isBackground true b) Hb)
        as [E|(pre & path & post & E' & Hset & E)].
      * left. exact E.
      * right. exists ("&" :: pre), path, post.
        split; [cbn; now f_equal | split; [now rewrite settled_plain | exact E]].
    + rewrite consume_plain by assumption.
      destruct (IHu (store_next (stringReplace pid t) (set_isBackground false b)))
        as [E|(pre & path & post & E' & Hset & E)]; [now apply store_next_started | |].
      * left. now rewrite store_next_output in E.
      * right. exists (t :: pre), path, post.
        split; [cbn; now f_equal | split; [|exact E]].
        rewrite settled_plain; [exact Hset | now apply is_redirect_no].
Qed.

Lemma background_paths (mode : bool) (pid : Z) (toks : list string) (b : builder) :
  build mode pid toks = Some b ->
  isBackground (newCmd b) = true ->
  ((forall pre path post,
      tail toks = pre ++ "<" :: path :: post -> settled pre = false) ->
   inputFile (newCmd b) = Some dev_null)
  /\ (forall pre path post,
        tail toks = pre ++ "<" :: path :: post ->
        settled pre = true ->
        (forall pre' path' post',
           post = pre' ++ "<" :: path' :: post' -> settled pre' = false) ->
        inputFile (newCmd b) = Some (stringReplace pid path))
  /\ ((forall pre path post,
         tail toks = pre ++ ">" :: path :: post -> settled pre = false) ->
      outputFile (newCmd b) = Some dev_null)
  /\ (forall pre path post,
        tail toks = pre ++ ">" :: path :: post ->
        settled pre = true ->
        (forall pre' path' post',
           post = pre' ++ ">" :: path' :: post' -> settled pre' = false) ->
        outputFile (newCmd b) = Some (stringReplace pid path)).
Proof.
  destruct toks as [|prog rest]; [discriminate|].
  rewrite build_cons. intros [= <-] Hbg. cbn [tail].
  pose proof (first_token_inv pid prog) as Hinv.
  pose proof (proj1 Hinv) as Hs.
  destruct (explicit_paths_start pid prog) as [Hi Ho].
  destruct (finish_paths _ _ Hbg) as [-> ->].
  set (b0 := store_arg 0 (stringReplace pid prog)
               (set_isBackground false fresh_builder)) in *.
  split; [|split; [|split]].
  - intros Hnone. destruct (consume_input_given pid rest b0 Hs)
      as [E|(pre & path & post & E & Hset & _)].
    + now rewrite E, Hi.
    + rewrite (Hnone _ _ _ E) in Hset. discriminate Hset.
  - intros pre path post -> Hset Hlast.
    rewrite consume_app by assumption.
    rewrite consume_input by apply (consume_inv pid pre b0 Hinv).
    match goal with |- context [consume pid post ?x] => set (b1 := x) end.
    assert (Hs1 : started b1) by apply (consume_inv pid pre b0 Hinv).
    destruct (consume_input_given pid post b1 Hs1)
      as [E|(pre' & path' & post' & E & Hset' & _)].
    + now rewrite E.
    + rewrite (Hlast _ _ _ E) in Hset'. discriminate Hset'.
  - intros Hnone. destruct (consume_output_given pid rest b0 Hs)
      as [E|(pre & path & post & E & Hset & _)].
    + now rewrite E, Ho.
    + rewrite (Hnone _ _ _ E) in Hset. discriminate Hset.
  - intros pre path post -> Hset Hlast.
    rewrite consume_app by assumption.
    rewrite consume_output by apply (consume_inv pid pre b0 Hinv).
    match goal with |- context [consume pid post ?x] => set (b1 := x) end.
    assert (Hs1 : started b1) by apply (consume_inv pid pre b0 Hinv).
    destruct (consume_output_given pid post b1 Hs1)
      as [E|(pre' & path' & post' & E & Hset' & _)].
    + now rewrite E.
    + rewrite (Hlast _ _ _ E) in Hset'. discriminate Hset'.
Qed.

(** C8, on the runs that keep their stores inside [args], and at the input
    on which the code departs from it.  An input redirection is given where
    [<], read as an operator (the tokens before it leave no operator
    waiting), is followed by a token.  In a descriptor built without a store
    outside [args] and whose background flag is true: when no input
    redirection is given, [inputFile] is ["/dev/null"]; when one is given and
    none is given after it, [inputFile] is the expansion of its operand; and
    the same for [>] and [outputFile].  The line [a x ... x &] with 513
    arguments is accepted, has no [<], gives a background descriptor, and
    makes the store at index 513 of [args]. *)
Theorem C8_background_defaults (pid : Z) :
  (forall mode toks b,
     build mode pid toks = Some b ->
     stray b = [] ->
     isBackground (newCmd b) = true ->
     ((forall pre path post,
         tail toks = pre ++ "<" :: path :: post -> settled pre = false) ->
      inputFile (newCmd b) = Some dev_null)
     /\ (forall pre path post,
           tail toks = pre ++ "<" :: path :: post ->
           settled pre = true ->
           (forall pre' path' post',
              post = pre' ++ "<" :: path' :: post' -> settled pre' = false) ->
           inputFile (newCmd b) = Some (stringReplace pid path))
     /\ ((forall pre path post,
            tail toks = pre ++ ">" :: path :: post -> settled pre = false) ->
         outputFile (newCmd b) = Some dev_null)
     /\ (forall pre path post,
           tail toks = pre ++ ">" :: path :: post ->
           settled pre = true ->
           (forall pre' path' post',
              post = pre' ++ ">" :: path' :: post' -> settled pre' = false) ->
           outputFile (newCmd b) = Some (stringReplace pid path)))
  /\ (accepted (line_with_args_bg 513) = true
      /\ forallb (fun t => negb (String.eqb t "<"))
           (strtok_seq EmptyString (line_with_args_bg 513)) = true
      /\ option_map isBackground (processInput false pid (line_with_args_bg 513))
         = Some true
      /\ processInput_stray false pid (line_with_args_bg 513) = [(513%Z, "x")]).
Proof.
  split.
  - intros mode toks b Hb _ Hbg. now apply (background_paths mode pid toks b).
  - vm_compute. repeat split; reflexivity.
Qed.

Lemma C8_background_defaults_witness :
  exists b,
    build false 1234 ["sort"; "<"; "in$$"; "-r"; "&"] = Some b
    /\ stray b = []
    /\ isBackground (newCmd b) = true
    /\ inputFile (newCmd b) = Some "in1234"
    /\ outputFile (newCmd b) = Some "/dev/null".
Proof.
  eexists. split; [reflexivity|]. split; [reflexivity|]. split; [reflexivity|].
  destruct (proj1 (C8_background_defaults 1234) false
              ["sort"; "<"; "in$$"; "-r"; "&"] _ eq_refl eq_refl eq_refl)
    as (_ & Hin & Hout & _).
  split.
  - apply (Hin [] "in$$" ["-r"; "&"]); [reflexivity | reflexivity |].
    intros pre' path' post' E. exfalso.
    do 3 (destruct pre' as [|? pre']; [discriminate E|]). discriminate E.
  - apply Hout.
    intros pre path post E. exfalso.
    do 5 (destruct pre as [|? pre]; [discriminate E|]). discriminate E.
Defined.
